(** * screenplain: the Fountain parser (screenplain/parsers/fountain.py)

    A shallow embedding of the paragraph classifier, the line grouper, the
    title-page parser and the top-level [parse] of the Fountain parser, and
    the properties of them that the specification states.

    The source is Python 2 ([it.next()], [basestring]): a line is a byte
    string, modelled as [string]; [str.upper], [str.isupper] and
    [str.strip] act on ASCII letters and ASCII white space (the C locale);
    a [dict] is a finite map with no order of its own, modelled as a
    [gmap].  The regular expressions of the module are kept as syntax
    trees and run by a backtracking matcher that tries the alternatives in
    the order of Python's [re] module. *)

From Stdlib Require Import Ascii String.
From stdpp Require Import gmap strings list fin_maps.

Set Default Proof Using "Type".

(** ** Python byte strings *)

Module Py.

Definition NL : ascii := "010"%char.
Definition CR : ascii := "013"%char.
Definition TAB : ascii := "009"%char.

(** [isspace], [islower], [isupper] of C in the C locale. *)
Definition isspace (c : ascii) : bool :=
  match c with
  | "009" | "010" | "011" | "012" | "013" | " " => true
  | _ => false
  end%char.

Definition islower (c : ascii) : bool :=
  let n := nat_of_ascii c in (97 <=? n) && (n <=? 122).

Definition isupper_char (c : ascii) : bool :=
  let n := nat_of_ascii c in (65 <=? n) && (n <=? 90).

Definition toupper (c : ascii) : ascii :=
  if islower c then ascii_of_nat (nat_of_ascii c - 32) else c.

Fixpoint smap (f : ascii -> ascii) (s : string) : string :=
  match s with
  | EmptyString => EmptyString
  | String c s' => String (f c) (smap f s')
  end.

Fixpoint sall (p : ascii -> bool) (s : string) : bool :=
  match s with
  | EmptyString => true
  | String c s' => p c && sall p s'
  end.

Fixpoint sany (p : ascii -> bool) (s : string) : bool :=
  match s with
  | EmptyString => false
  | String c s' => p c || sany p s'
  end.

(** [s.upper()] *)
Definition upper (s : string) : string := smap toupper s.

(** [s.isupper()]: some cased character, and no lower-case one. *)
Definition isupper (s : string) : bool :=
  sany isupper_char s && negb (sany islower s).

(** [s.lstrip()] and [s.lstrip(chars)]: drop the leading characters of
    the set. *)
Fixpoint lstrip_by (p : ascii -> bool) (s : string) : string :=
  match s with
  | EmptyString => EmptyString
  | String c s' => if p c then lstrip_by p s' else s
  end.

(** [s.rstrip()] and [s.rstrip(chars)]: drop the trailing characters of
    the set. *)
Fixpoint rstrip_by (p : ascii -> bool) (s : string) : string :=
  match s with
  | EmptyString => EmptyString
  | String c s' =>
      match rstrip_by p s' with
      | EmptyString => if p c then EmptyString else String c EmptyString
      | t => String c t
      end
  end.

Definition lstrip (s : string) : string := lstrip_by isspace s.
Definition rstrip (s : string) : string := rstrip_by isspace s.
Definition strip (s : string) : string := lstrip (rstrip s).

(** [s.startswith(p)] *)
Fixpoint startswith (s p : string) {struct p} : bool :=
  match p, s with
  | EmptyString, _ => true
  | String a p', String b s' => Ascii.eqb a b && startswith s' p'
  | String _ _, EmptyString => false
  end.

(** [s.endswith(p)]: some tail of [s] is [p]. *)
Fixpoint endswith (s p : string) : bool :=
  String.eqb s p ||
  match s with
  | EmptyString => false
  | String _ s' => endswith s' p
  end.

(** [s[1:]] *)
Definition tail (s : string) : string :=
  match s with
  | EmptyString => EmptyString
  | String _ s' => s'
  end.

(** [s[:n]] *)
Fixpoint take (n : nat) (s : string) : string :=
  match n, s with
  | S n', String c s' => String c (take n' s')
  | _, _ => EmptyString
  end.

(** [s.expandtabs(tabsize)]: [j] is the column, which a line feed or a
    carriage return resets. *)
Fixpoint expandtabs_from (tabsize j : nat) (s : string) : string :=
  match s with
  | EmptyString => EmptyString
  | String c s' =>
      if Ascii.eqb c TAB then
        match tabsize with
        | 0 => expandtabs_from tabsize j s'
        | _ =>
            let i := tabsize - j mod tabsize in
            String.append (String.concat "" (replicate i " "))
              (expandtabs_from tabsize (j + i) s')
        end
      else
        String c (expandtabs_from tabsize
                    (if Ascii.eqb c NL || Ascii.eqb c CR then 0 else S j) s')
  end.

Definition expandtabs (tabsize : nat) (s : string) : string :=
  expandtabs_from tabsize 0 s.

End Py.

(** ** Regular expressions

    The patterns of the module use literals, character classes, the greedy
    and lazy quantifiers on a single character class, [?] on a group,
    alternation, capturing groups and the anchors [^] and [$]. *)

Module Re.

Inductive regex : Type :=
| Cls (p : ascii -> bool)
    (** one character of a class: a literal, [.], [\s], [\S], [[^:]] *)
| Rep (greedy : bool) (lo : nat) (hi : option nat) (p : ascii -> bool)
    (** [lo] to [hi] characters of a class: [*], [+], [{m,n}], and the
        lazy [*?], [+?] *)
| Opt (r : regex)            (** [r?], greedy *)
| Seq (r1 r2 : regex)
| Alt (r1 r2 : regex)        (** [r1|r2] *)
| Grp (n : nat) (r : regex)  (** capturing group number [n] *)
| Bol                        (** [^] *)
| Eol.                       (** [$] *)

(** The groups that took part in the match, latest first. *)
Definition captures : Type := list (nat * string).

Definition kont : Type := string -> captures -> option captures.

(** What was read between the rest [s] and the later rest [s']. *)
Definition consumed (s s' : string) : string :=
  Py.take (String.length s - String.length s') s.

(** [rep greedy p lo hi s k]: read between [lo] and [hi] characters of
    class [p] from [s], then go on with [k]; a greedy quantifier tries
    one more character first, a lazy one tries to stop first. *)
Fixpoint rep (greedy : bool) (p : ascii -> bool) (lo : nat) (hi : option nat)
    (s : string) (k : string -> option captures) : option captures :=
  let more (_ : unit) :=
    match s, hi with
    | String c s', None =>
        if p c then rep greedy p (pred lo) None s' k else None
    | String c s', Some (S h) =>
        if p c then rep greedy p (pred lo) (Some h) s' k else None
    | _, _ => None
    end in
  let stop (_ : unit) :=
    match lo with
    | 0 => k s
    | S _ => None
    end in
  if greedy then
    match more tt with Some r => Some r | None => stop tt end
  else
    match stop tt with Some r => Some r | None => more tt end.

(** [run r w s caps k]: match [r] at the rest [s] of the whole subject
    [w], then go on with [k]; [None] when every alternative fails. *)
Fixpoint run (r : regex) (w s : string) (caps : captures) (k : kont)
    : option captures :=
  match r with
  | Cls p =>
      match s with
      | String c s' => if p c then k s' caps else None
      | EmptyString => None
      end
  | Rep greedy lo hi p => rep greedy p lo hi s (fun s' => k s' caps)
  | Opt r1 =>
      match run r1 w s caps k with
      | Some res => Some res
      | None => k s caps
      end
  | Seq r1 r2 => run r1 w s caps (fun s' caps' => run r2 w s' caps' k)
  | Alt r1 r2 =>
      match run r1 w s caps k with
      | Some res => Some res
      | None => run r2 w s caps k
      end
  | Grp n r1 =>
      run r1 w s caps (fun s' caps' => k s' ((n, consumed s s') :: caps'))
  | Bol => if String.length s =? String.length w then k s caps else None
  | Eol =>
      match s with
      | EmptyString => k s caps
      | String c EmptyString => if Ascii.eqb c Py.NL then k s caps else None
      | _ => None
      end
  end.

(** [pattern.match(s)]: anchored at the start of [s], not at its end. *)
Definition rmatch (r : regex) (s : string) : option captures :=
  run r s s [] (fun _ caps => Some caps).

(** [m.group(n)]: [None] for a group that took no part in the match. *)
Fixpoint group (n : nat) (caps : captures) : option string :=
  match caps with
  | [] => None
  | (i, v) :: caps' => if i =? n then Some v else group n caps'
  end.

(** Character classes. *)
Definition lit (c : ascii) : ascii -> bool := Ascii.eqb c.
Definition any : ascii -> bool := fun c => negb (Ascii.eqb c Py.NL).
Definition space : ascii -> bool := Py.isspace.
Definition nonspace : ascii -> bool := fun c => negb (Py.isspace c).
Definition isdigit (c : ascii) : bool :=
  let n := nat_of_ascii c in (48 <=? n) && (n <=? 57).
Definition word : ascii -> bool :=
  fun c => Py.islower c || Py.isupper_char c || isdigit c || Ascii.eqb c "_".
Definition oneof (cs : string) : ascii -> bool :=
  fun c => Py.sany (Ascii.eqb c) cs.

Definition chr (c : ascii) : regex := Cls (lit c).

(** A literal string. *)
Fixpoint str (s : string) : regex :=
  match s with
  | EmptyString => Rep true 0 (Some 0) any
  | String c EmptyString => chr c
  | String c s' => Seq (chr c) (str s')
  end.

Definition star (p : ascii -> bool) : regex := Rep true 0 None p.
Definition plus (p : ascii -> bool) : regex := Rep true 1 None p.
Definition lazy_star (p : ascii -> bool) : regex := Rep false 0 None p.
Definition lazy_plus (p : ascii -> bool) : regex := Rep false 1 None p.

Fixpoint seq (rs : list regex) : regex :=
  match rs with
  | [] => Rep true 0 (Some 0) any
  | [r] => r
  | r :: rs' => Seq r (seq rs')
  end.

End Re.


(** ** The parser *)

(** *** The patterns of the module

    Each pattern is quoted before its syntax tree; in the quotation a blank
    separates a star from a closing parenthesis that follows it. *)

(** The patterns "^(INT|EXT|EST)[ .]", "^(INT\.?/EXT\.?)[ .]" and
    "^I/E[ .]". *)
Definition slug_regexes : list Re.regex :=
  [ Re.seq [Re.Bol;
            Re.Grp 1 (Re.Alt (Re.str "INT")
                        (Re.Alt (Re.str "EXT") (Re.str "EST")));
            Re.Cls (Re.oneof " .")];
    Re.seq [Re.Bol;
            Re.Grp 1 (Re.seq [Re.str "INT"; Re.Opt (Re.chr "."); Re.chr "/";
                              Re.str "EXT"; Re.Opt (Re.chr ".")]);
            Re.Cls (Re.oneof " .")];
    Re.seq [Re.Bol; Re.str "I/E"; Re.Cls (Re.oneof " .")] ].

Definition TWOSPACE : string := "  ".

(** The pattern "([^:]+):\s*(.* )". *)
Definition title_page_key_re : Re.regex :=
  Re.seq [Re.Grp 1 (Re.plus (fun c => negb (Ascii.eqb c ":")));
          Re.chr ":"; Re.star Re.space; Re.Grp 2 (Re.star Re.any)].

(** The pattern "(?:\s{3,}|\t)(.+)". *)
Definition title_page_value_re : Re.regex :=
  Re.seq [Re.Alt (Re.Rep true 3 None Re.space) (Re.chr Py.TAB);
          Re.Grp 1 (Re.plus Re.any)].

(** The pattern "\s*>\s*(.*?)\s*<\s*$". *)
Definition centered_re : Re.regex :=
  Re.seq [Re.star Re.space; Re.chr ">"; Re.star Re.space;
          Re.Grp 1 (Re.lazy_star Re.any);
          Re.star Re.space; Re.chr "<"; Re.star Re.space; Re.Eol].

(** The pattern "^(.+?)(\s*\^)$". *)
Definition dual_dialog_re : Re.regex :=
  Re.seq [Re.Bol; Re.Grp 1 (Re.lazy_plus Re.any);
          Re.Grp 2 (Re.Seq (Re.star Re.space) (Re.chr "^")); Re.Eol].

(** The pattern "(?:(\.)\s* )?(\S.*?)\s*$". *)
Definition slug_re : Re.regex :=
  Re.seq [Re.Opt (Re.Seq (Re.Grp 1 (Re.chr ".")) (Re.star Re.space));
          Re.Grp 2 (Re.Seq (Re.Cls Re.nonspace) (Re.lazy_star Re.any));
          Re.star Re.space; Re.Eol].

(** The pattern "(.*?)\s*(?:#([\w\-.]+)#)\s*$". *)
Definition scene_number_re : Re.regex :=
  Re.seq [Re.Grp 1 (Re.lazy_star Re.any); Re.star Re.space; Re.chr "#";
          Re.Grp 2 (Re.plus (fun c => Re.word c || Re.oneof "-." c));
          Re.chr "#"; Re.star Re.space; Re.Eol].

(** The pattern "^(#{1,6})\s*([^#].* )$". *)
Definition section_re : Re.regex :=
  Re.seq [Re.Bol; Re.Grp 1 (Re.Rep true 1 (Some 6) (Re.lit "#"));
          Re.star Re.space;
          Re.Grp 2 (Re.Seq (Re.Cls (fun c => negb (Ascii.eqb c "#")))
                           (Re.star Re.any));
          Re.Eol].

(** The pattern "(>?)\s*(.+?)(TO:)?$". *)
Definition transition_re : Re.regex :=
  Re.seq [Re.Grp 1 (Re.Opt (Re.chr ">")); Re.star Re.space;
          Re.Grp 2 (Re.lazy_plus Re.any);
          Re.Opt (Re.Grp 3 (Re.str "TO:")); Re.Eol].

(** The text of a group that took part in the match. *)
Definition group_text (n : nat) (m : Re.captures) : string :=
  default "" (Re.group n m).

(** The truth value of a string or of [None]: a non-empty string. *)
Definition truthy (o : option string) : bool :=
  match o with
  | Some (String _ _) => true
  | _ => false
  end.

(** [bool(pattern.match(s))] *)
Definition matches (r : Re.regex) (s : string) : bool :=
  match Re.rmatch r s with
  | Some _ => true
  | None => false
  end.

(** *** The elements of a screenplay *)

(** [screenplain.richstring] is not part of the parser, which only calls
    it: the type of rich text and the two functions that make one from a
    string are an interface. *)
Class RichString : Type := {
  RichText : Type;
  parse_emphasis : string -> RichText;
  plain : string -> RichText
}.

(** The instance that records which of the two functions made a rich text,
    and from which string; the examples run the parser with it. *)
Inductive Markup : Type :=
| Emphasis (raw : string)
| Plain (raw : string).

Definition markup : RichString :=
  {| RichText := Markup; parse_emphasis := Emphasis; plain := Plain |}.

Section Fountain.

Context `{RichString}.

(** Modelled from the spec: the classes of [screenplain.types], which the
    parser imports and only constructs.  Every class but [DualDialog]
    carries an optional synopsis, [None] at creation, and has the method
    [set_synopsis]; an [Action] is not centered unless asked; the two
    parts of a [DualDialog] are the objects it was given. *)
Inductive Element : Type :=
| Slug (line : RichText) (scene_number : option RichText)
    (synopsis : option string)
| Action (lines : list RichText) (centered : bool) (synopsis : option string)
| Section (text : RichText) (level : nat) (synopsis : option string)
| Transition (line : RichText) (synopsis : option string)
| Dialog (character : RichText) (lines : list RichText)
    (synopsis : option string)
| DualDialog (left right : Element).

(** [isinstance(e, Dialog)] *)
Definition is_Dialog (e : Element) : bool :=
  match e with
  | Dialog _ _ _ => true
  | _ => false
  end.

(** [hasattr(e, 'set_synopsis')] *)
Definition has_set_synopsis (e : Element) : bool :=
  match e with
  | DualDialog _ _ => false
  | _ => true
  end.

(** [e.set_synopsis(text)] *)
Definition set_synopsis (e : Element) (text : string) : Element :=
  match e with
  | Slug l n _ => Slug l n (Some text)
  | Action ls c _ => Action ls c (Some text)
  | Section t n _ => Section t n (Some text)
  | Transition l _ => Transition l (Some text)
  | Dialog c ls _ => Dialog c ls (Some text)
  | DualDialog l r => DualDialog l r
  end.

(** [l.pop()] on a list that is not empty: the last item, and the list
    without it. *)
Definition pop {A} (l : list A) : option (A * list A) :=
  match last l with
  | Some x => Some (x, removelast l)
  | None => None
  end.

(** *** InputParagraph

    An input paragraph is the list [self.lines].  A method that may pop
    from [previous_paragraphs] returns its value and the list as the call
    leaves it. *)

(** [_to_rich] on a list of lines (on one line it is [parse_emphasis]). *)
Definition _to_rich (lines : list string) : list RichText :=
  map parse_emphasis lines.

Definition as_slug (lines : list string) : option Element :=
  match lines with
  | [line] =>
      match Re.rmatch slug_re line with
      | None => None
      | Some m =>
          let period := Re.group 1 m in
          let text := Py.upper (group_text 2 m) in
          if negb (truthy period) &&
             negb (existsb (fun regex => matches regex text) slug_regexes)
          then None
          else
            match Re.rmatch scene_number_re text with
            | Some m' =>
                Some (Slug (parse_emphasis (group_text 1 m'))
                           (Some (plain (group_text 2 m'))) None)
            | None => Some (Slug (parse_emphasis text) None None)
            end
      end
  | _ => None
  end.

Definition as_section (lines : list string) : option Element :=
  match lines with
  | [line] =>
      match Re.rmatch section_re line with
      | None => None
      | Some m =>
          let hashes := group_text 1 m in
          let text := group_text 2 m in
          Some (Section (parse_emphasis text) (String.length hashes) None)
      end
  | _ => None
  end.

Definition as_centered_action (lines : list string) : option Element :=
  if negb (forallb (matches centered_re) lines) then None
  else
    Some (Action
            (_to_rich
               (map (fun line =>
                       match Re.rmatch centered_re line with
                       | Some m => group_text 1 m
                       | None => ""
                       end) lines))
            true None).

Definition _create_dialog (lines : list string) (character : string)
    : Element :=
  Dialog (parse_emphasis character) (_to_rich (map Py.strip (drop 1 lines)))
    None.

Definition as_dialog (lines : list string) (previous_paragraphs : list Element)
    : option Element * list Element :=
  if length lines <? 2 then (None, previous_paragraphs)
  else
    let character := nth 0 lines "" in
    if negb (Py.isupper character) || Py.endswith character TWOSPACE
    then (None, previous_paragraphs)
    else
      let plain_dialog :=
        (Some (_create_dialog lines character), previous_paragraphs) in
      match pop previous_paragraphs with
      | Some (previous, popped) =>
          if is_Dialog previous then
            match Re.rmatch dual_dialog_re character with
            | Some dual_match =>
                let dialog := _create_dialog lines (group_text 1 dual_match) in
                (Some (DualDialog previous dialog), popped)
            | None => plain_dialog
            end
          else plain_dialog
      | None => plain_dialog
      end.

Definition as_transition (lines : list string) : option Element :=
  match lines with
  | [line] =>
      match Re.rmatch transition_re line with
      | None => None
      | Some m =>
          let greater_than := Re.group 1 m in
          let text := group_text 2 m in
          let to_colon := Re.group 3 m in
          if truthy greater_than then
            Some (Transition
                    (parse_emphasis
                       (String.append (Py.upper text) (default "" to_colon)))
                    None)
          else if Py.isupper text && truthy to_colon then
            Some (Transition
                    (parse_emphasis
                       (String.append text (default "" to_colon)))
                    None)
          else None
      end
  | _ => None
  end.

Definition as_action (lines : list string) : Element :=
  Action (_to_rich (map Py.rstrip lines)) false None.

Definition as_synopsis (lines : list string)
    (previous_paragraphs : list Element) : option Element * list Element :=
  match lines, pop previous_paragraphs with
  | [line], Some (paragraph, popped) =>
      if Py.startswith line "=" && has_set_synopsis paragraph then
        (Some (set_synopsis paragraph (Py.lstrip (Py.tail line))), popped)
      else (None, previous_paragraphs)
  | _, _ => (None, previous_paragraphs)
  end.

(** [update_list]: the value of the chain of [or] is the value of the
    first method that does not return [None]; it is appended to
    [previous_paragraphs] as the methods called left it. *)
Definition update_list (lines : list string)
    (previous_paragraphs : list Element) : list Element :=
  let '(e, prev) :=
    match as_synopsis lines previous_paragraphs with
    | (Some e, prev) => (e, prev)
    | (None, prev) =>
    match as_section lines with
    | Some e => (e, prev)
    | None =>
    match as_slug lines with
    | Some e => (e, prev)
    | None =>
    match as_centered_action lines with
    | Some e => (e, prev)
    | None =>
    match as_dialog lines prev with
    | (Some e, prev) => (e, prev)
    | (None, prev) =>
    match as_transition lines with
    | Some e => (e, prev)
    | None => (as_action lines, prev)
    end end end end end end in
  prev ++ [e].

(** *** Lines, paragraphs and the title page *)

Definition _preprocess_line (raw_line : string) : string :=
  Py.rstrip_by (fun c => Ascii.eqb c Py.CR || Ascii.eqb c Py.NL)
    (Py.expandtabs 4 raw_line).

Definition _is_blank (line : string) : bool := String.eqb line "".

(** [itertools.groupby(source, key)]: the maximal runs of consecutive
    items with the same key, each with its key. *)
Fixpoint groupby {A} (key : A -> bool) (source : list A)
    : list (bool * list A) :=
  match source with
  | [] => []
  | x :: source' =>
      match groupby key source' with
      | (b, g) :: gs =>
          if Bool.eqb (key x) b then (b, x :: g) :: gs
          else (key x, [x]) :: (b, g) :: gs
      | [] => [(key x, [x])]
      end
  end.

(** The loop of [parse_body] over the groups. *)
Fixpoint parse_groups (groups : list (bool * list string))
    (paragraphs : list Element) : list Element :=
  match groups with
  | [] => paragraphs
  | (blank, input_lines) :: groups' =>
      parse_groups groups'
        (if blank then paragraphs else update_list input_lines paragraphs)
  end.

Definition parse_body (source : list string) : list Element :=
  parse_groups (groupby _is_blank source) [].

(** [result.setdefault(key, []).append(value)] *)
Definition setdefault_append (key value : string)
    (result : gmap string (list string)) : gmap string (list string) :=
  <[key := default [] (result !! key) ++ [value]]> result.

(** The loop [while True] of [parse_title_page], entered with the current
    [line] and the rest [it] of the iterator.  [it.next()] at the end of
    the iterator raises [StopIteration], which returns [result]; the inner
    loop [for line in it] either breaks at a line that is no value line,
    which is the next [line] of the outer loop, or runs out, which breaks
    the outer loop. *)
Fixpoint title_page_loop (line : string) (it : list string)
    (result : gmap string (list string)) {struct it}
    : option (gmap string (list string)) :=
  match Re.rmatch title_page_key_re line with
  | None => None
  | Some key_match =>
      let key := group_text 1 key_match in
      let value := group_text 2 key_match in
      if truthy (Some value) then
        let result := setdefault_append key value result in
        match it with
        | [] => Some result
        | line' :: it' => title_page_loop line' it' result
        end
      else
        (fix for_line (it : list string) (result : gmap string (list string))
             {struct it} : option (gmap string (list string)) :=
           match it with
           | [] => Some result
           | line' :: it' =>
               match Re.rmatch title_page_value_re line' with
               | None => title_page_loop line' it' result
               | Some value_match =>
                   for_line it'
                     (setdefault_append key (group_text 1 value_match) result)
               end
           end) it result
  end.

(** The inner loop [for line in it] of [title_page_loop] by itself, for
    the key whose line had no value. *)
Definition title_page_values (key : string)
    : list string -> gmap string (list string) ->
      option (gmap string (list string)) :=
  fix for_line (it : list string) (result : gmap string (list string))
      {struct it} : option (gmap string (list string)) :=
    match it with
    | [] => Some result
    | line' :: it' =>
        match Re.rmatch title_page_value_re line' with
        | None => title_page_loop line' it' result
        | Some value_match =>
            for_line it'
              (setdefault_append key (group_text 1 value_match) result)
        end
    end.

(** [parse_title_page]: [None] when a line is no key line where one is
    expected, the dictionary otherwise. *)
Definition parse_title_page (lines : list string)
    : option (gmap string (list string)) :=
  match lines with
  | [] => Some ∅
  | line :: it => title_page_loop line it ∅
  end.

(** [takewhile(predicate, source)] run to its end on a generator: the
    items taken, and the generator afterwards; the first item that fails
    the predicate is consumed and dropped. *)
Fixpoint takewhile {A} (predicate : A -> bool) (source : list A)
    : list A * list A :=
  match source with
  | [] => ([], [])
  | x :: source' =>
      if predicate x then
        let '(taken, rest) := takewhile predicate source' in (x :: taken, rest)
      else ([], source')
  end.

(** The truth value of the result of [parse_title_page]: [None] and the
    empty dictionary are false. *)
Definition title_page_truthy (title_page : option (gmap string (list string)))
    : bool :=
  match title_page with
  | Some d => negb (bool_decide (d = ∅))
  | None => false
  end.

(** The first block of the preprocessed lines, as [parse] takes it, and
    the lines after the blank line that ends it. *)
Definition leading_block (source : list string) : list string :=
  (takewhile (fun line => negb (String.eqb line ""))
     (map _preprocess_line source)).1.

Definition remaining_lines (source : list string) : list string :=
  (takewhile (fun line => negb (String.eqb line ""))
     (map _preprocess_line source)).2.

Definition parse (source : list string) : list Element :=
  let source := map _preprocess_line source in
  let '(title_page_lines, source) :=
    takewhile (fun line => negb (String.eqb line "")) source in
  let title_page := parse_title_page title_page_lines in
  if title_page_truthy title_page then parse_body source
  else parse_body (title_page_lines ++ [""] ++ source).

(** *** The specification's reading of the parser *)

(** The input paragraphs of a sequence of lines: the maximal runs of lines
    that are not blank. *)
Definition input_paragraphs (source : list string) : list (list string) :=
  map snd (List.filter (fun g => negb g.1) (groupby _is_blank source)).

(** The rules of the classifier, and the value of each on a paragraph. *)
Inductive Rule : Type :=
| RSynopsis | RSection | RSlug | RCentered | RDialog | RTransition | RAction.

Definition rule_value (r : Rule) (lines : list string)
    (previous_paragraphs : list Element) : option Element * list Element :=
  match r with
  | RSynopsis => as_synopsis lines previous_paragraphs
  | RSection => (as_section lines, previous_paragraphs)
  | RSlug => (as_slug lines, previous_paragraphs)
  | RCentered => (as_centered_action lines, previous_paragraphs)
  | RDialog => as_dialog lines previous_paragraphs
  | RTransition => (as_transition lines, previous_paragraphs)
  | RAction => (Some (as_action lines), previous_paragraphs)
  end.

(** The fixed order of the rules. *)
Definition precedence : list Rule :=
  [RSynopsis; RSection; RSlug; RCentered; RDialog; RTransition; RAction].

(** The rules tried in order, the first that matches winning: the rule,
    its element, and the list of previous elements as it leaves it. *)
Fixpoint first_match (rules : list Rule) (lines : list string)
    (previous_paragraphs : list Element)
    : option (Rule * Element * list Element) :=
  match rules with
  | [] => None
  | r :: rules' =>
      match rule_value r lines previous_paragraphs with
      | (Some e, prev) => Some (r, e, prev)
      | (None, prev) => first_match rules' lines prev
      end
  end.

(** The title page as the specification describes it: what the parser
    expects next is a key line, or a value line of a key whose own line
    had no value. *)
Inductive Expect : Type :=
| KeyLine
| ValueLine (key : string).

(** The entries of a title-page block, in the order of the lines: a key
    line with a value is one entry; after a key line without a value each
    indented line is one entry of that key, and the first line that is not
    indented is read as a key line.  [None] when a line is no key line
    where one is expected. *)
Fixpoint title_page_entries (expect : Expect) (lines : list string)
    : option (list (string * string)) :=
  match lines with
  | [] => Some []
  | line :: lines' =>
      let as_key_line :=
        match Re.rmatch title_page_key_re line with
        | None => None
        | Some m =>
            let key := group_text 1 m in
            let value := group_text 2 m in
            if truthy (Some value)
            then cons (key, value) <$> title_page_entries KeyLine lines'
            else title_page_entries (ValueLine key) lines'
        end in
      match expect with
      | KeyLine => as_key_line
      | ValueLine key =>
          match Re.rmatch title_page_value_re line with
          | Some m =>
              cons (key, group_text 1 m)
                <$> title_page_entries (ValueLine key) lines'
          | None => as_key_line
          end
      end
  end.

(** The dictionary after the entries are recorded in their order. *)
Definition add_entries (entries : list (string * string))
    (result : gmap string (list string)) : gmap string (list string) :=
  foldl (fun r kv => setdefault_append kv.1 kv.2 r) result entries.

(** The values of a key among the entries, in their order. *)
Definition values_of (key : string) (entries : list (string * string))
    : list string :=
  map snd (List.filter (fun kv => bool_decide (kv.1 = key)) entries).

End Fountain.

(** * Properties *)

(** ** Lists *)

Lemma pop_snoc {A} (l : list A) (x : A) : pop (l ++ [x]) = Some (x, l).
Proof.
  unfold pop. rewrite last_snoc. by rewrite removelast_last.
Qed.

Lemma pop_nil {A} : pop (@nil A) = None.
Proof. reflexivity. Qed.

Lemma pop_Some {A} (l l' : list A) (x : A) :
  pop l = Some (x, l') -> l = l' ++ [x].
Proof.
  destruct l as [|y l0] using rev_ind; [done|].
  rewrite pop_snoc. by intros [= -> ->].
Qed.

Lemma pop_None {A} (l : list A) : pop l = None -> l = [].
Proof.
  destruct l as [|y l0] using rev_ind; [done|]. by rewrite pop_snoc.
Qed.

Section Classifier.

Context `{RichString}.

(** ** What a rule does to the list of previous elements *)

Lemma as_synopsis_cases lines prev :
  as_synopsis lines prev = (None, prev) \/
  exists init last text,
    prev = init ++ [last] /\ has_set_synopsis last = true /\
    as_synopsis lines prev = (Some (set_synopsis last text), init).
Proof.
  unfold as_synopsis.
  destruct lines as [|line [|? ?]]; auto.
  destruct (pop prev) as [[paragraph popped]|] eqn:Hpop; auto.
  apply pop_Some in Hpop as ->.
  destruct (Py.startswith line "=") ; simpl; auto.
  destruct (has_set_synopsis paragraph) eqn:Hcap; auto.
  right. by exists popped, paragraph, (Py.lstrip (Py.tail line)).
Qed.

Lemma as_dialog_cases lines prev :
  as_dialog lines prev = (None, prev) \/
  (exists d, is_Dialog d = true /\ as_dialog lines prev = (Some d, prev)) \/
  exists init last d,
    prev = init ++ [last] /\ is_Dialog last = true /\ is_Dialog d = true /\
    as_dialog lines prev = (Some (DualDialog last d), init).
Proof.
  unfold as_dialog.
  destruct (length lines <? 2); auto.
  destruct (negb _ || _); auto.
  assert (Hplain : exists d, is_Dialog d = true /\
    (Some (_create_dialog lines (nth 0 lines "")), prev) = (Some d, prev))
    by (by exists (_create_dialog lines (nth 0 lines ""))).
  destruct (pop prev) as [[previous popped]|] eqn:Hpop; auto.
  apply pop_Some in Hpop as ->.
  destruct (is_Dialog previous) eqn:Hd; auto.
  destruct (Re.rmatch dual_dialog_re _) as [dual_match|]; auto.
  right; right.
  by exists popped, previous,
       (_create_dialog lines (group_text 1 dual_match)).
Qed.

(** ** The loop of [parse_body] *)

Lemma parse_groups_fold groups paragraphs :
  parse_groups groups paragraphs =
  foldl (fun out lines => update_list lines out) paragraphs
    (map snd (List.filter (fun g => negb g.1) groups)).
Proof.
  revert paragraphs.
  induction groups as [|[[] input_lines] groups IH]; intros; simpl; auto.
Qed.

Lemma parse_body_fold source :
  parse_body source =
  foldl (fun out lines => update_list lines out) [] (input_paragraphs source).
Proof. apply parse_groups_fold. Qed.

(** ** C5: a rule appends one element or replaces the last one *)

(** C5. Each call of [update_list] either appends exactly one element to
    the list of previous elements, or keeps its length and replaces only
    its last element: a dual dialogue replaces the preceding [Dialog] by
    the [DualDialog] of it and the new one, a synopsis puts the preceding
    element back with the synopsis set.  The elements before the last are
    left as they are, and [parse_body] calls [update_list] on the input
    paragraphs in their order. *)
Theorem C5_update_list_changes_only_the_end :
  (forall lines prev,
     (exists e, update_list lines prev = prev ++ [e]) \/
     (exists init last,
        prev = init ++ [last] /\
        ((exists d, is_Dialog last = true /\ is_Dialog d = true /\
                    update_list lines prev = init ++ [DualDialog last d]) \/
         (exists text, has_set_synopsis last = true /\
                       update_list lines prev =
                       init ++ [set_synopsis last text])))) /\
  (forall source,
     parse_body source =
     foldl (fun out lines => update_list lines out) []
       (input_paragraphs source)).
Proof.
  split; [|apply parse_body_fold].
  intros lines prev. unfold update_list.
  destruct (as_synopsis_cases lines prev)
    as [-> | (init & last & text & -> & Hcap & ->)].
  - destruct (as_section lines); [left; by eexists|].
    destruct (as_slug lines); [left; by eexists|].
    destruct (as_centered_action lines); [left; by eexists|].
    destruct (as_dialog_cases lines prev)
      as [-> | [(d & _ & ->) | (init & last & d & -> & Hl & Hd & ->)]].
    + destruct (as_transition lines); left; by eexists.
    + left; by eexists.
    + right. exists init, last. split; [done|]. left. by exists d.
  - right. exists init, last. split; [done|]. right. by exists text.
Qed.

(** ** C7: the dual dialogue of the specification *)

Lemma update_list_alice prev :
  update_list ["ALICE"; "hi"] prev =
  prev ++ [Dialog (parse_emphasis "ALICE") [parse_emphasis "hi"] None].
Proof.
  unfold update_list, as_dialog.
  change (as_synopsis ["ALICE"; "hi"] prev) with (@None Element, prev).
  cbv beta iota.
  change (as_section ["ALICE"; "hi"]) with (@None Element).
  change (as_slug ["ALICE"; "hi"]) with (@None Element).
  replace (as_centered_action ["ALICE"; "hi"]) with (@None Element)
    by (vm_compute; reflexivity).
  replace (Re.rmatch dual_dialog_re (nth 0 ["ALICE"; "hi"] ""))
    with (@None Re.captures) by (vm_compute; reflexivity).
  cbn.
  destruct (pop prev) as [[previous popped]|];
    [destruct (is_Dialog previous)|]; reflexivity.
Qed.

(** C7. After the paragraph [ALICE / hi], the paragraph [BOB ^ / hey]
    leaves one element for the pair, the [DualDialog] of Alice's [Dialog]
    and of Bob's, whose character is [BOB] without the marker; this holds
    after any previous elements, and for the body made of the two
    paragraphs alone. *)
Theorem C7_dual_dialog_of_alice_and_bob :
  (forall prev,
     update_list ["BOB ^"; "hey"] (update_list ["ALICE"; "hi"] prev) =
     prev ++
     [DualDialog
        (Dialog (parse_emphasis "ALICE") [parse_emphasis "hi"] None)
        (Dialog (parse_emphasis "BOB") [parse_emphasis "hey"] None)]) /\
  parse_body ["ALICE"; "hi"; ""; "BOB ^"; "hey"] =
  [DualDialog
     (Dialog (parse_emphasis "ALICE") [parse_emphasis "hi"] None)
     (Dialog (parse_emphasis "BOB") [parse_emphasis "hey"] None)].
Proof.
  assert (Hpair : forall prev,
    update_list ["BOB ^"; "hey"] (update_list ["ALICE"; "hi"] prev) =
    prev ++
    [DualDialog
       (Dialog (parse_emphasis "ALICE") [parse_emphasis "hi"] None)
       (Dialog (parse_emphasis "BOB") [parse_emphasis "hey"] None)]).
  { intros prev. rewrite update_list_alice.
    unfold update_list, as_dialog.
    change (as_synopsis ["BOB ^"; "hey"] ?p) with (@None Element, p).
    cbv beta iota.
    change (as_section ["BOB ^"; "hey"]) with (@None Element).
    change (as_slug ["BOB ^"; "hey"]) with (@None Element).
    replace (as_centered_action ["BOB ^"; "hey"]) with (@None Element)
      by (vm_compute; reflexivity).
    rewrite pop_snoc.
    replace (Re.rmatch dual_dialog_re (nth 0 ["BOB ^"; "hey"] ""))
      with (Some [(2, " ^"); (1, "BOB")]) by (vm_compute; reflexivity).
    reflexivity. }
  split; [exact Hpair|].
  rewrite parse_body_fold.
  change (input_paragraphs ["ALICE"; "hi"; ""; "BOB ^"; "hey"])
    with [["ALICE"; "hi"]; ["BOB ^"; "hey"]].
  apply (Hpair []).
Qed.

(** ** C8: the synopsis is attached to the previous element *)

Lemma startswith_cons c s : Py.startswith (String c s) (String c "") = true.
Proof. simpl. by rewrite Ascii.eqb_refl. Qed.

(** C8. A paragraph of one line that starts with [=], classified when the
    previous element exists and has [set_synopsis], sets the synopsis of
    that element to the rest of the line without its leading white space,
    and appends no element. *)
Theorem C8_synopsis_attaches_to_previous rest prev last :
  has_set_synopsis last = true ->
  update_list [String "=" rest] (prev ++ [last]) =
  prev ++ [set_synopsis last (Py.lstrip rest)].
Proof.
  intros Hcap. unfold update_list, as_synopsis.
  by rewrite pop_snoc, startswith_cons, Hcap.
Qed.

(** ** The line grouper *)

Lemma _is_blank_spec line : _is_blank line = true <-> line = "".
Proof. unfold _is_blank. apply String.eqb_eq. Qed.

Lemma _is_blank_false line : line <> "" -> _is_blank line = false.
Proof.
  intros Hne. destruct (_is_blank line) eqn:Hb; [|done].
  by apply _is_blank_spec in Hb.
Qed.

Lemma groupby_head_key {A} (key : A -> bool) x l b g gs :
  groupby key (x :: l) = (b, g) :: gs -> b = key x.
Proof.
  simpl. destruct (groupby key l) as [|[b' g'] gs']; [by intros [= <- _ _]|].
  destruct (Bool.eqb (key x) b') eqn:Heq; intros [= <- _ _]; [|done].
  symmetry. by apply Bool.eqb_prop.
Qed.

(** A run of lines that are not blank, followed by nothing or by a blank
    line, is one group. *)
Lemma groupby_run (run rest : list string) :
  run <> [] -> Forall (fun line => line <> "") run ->
  match rest with [] => True | line :: _ => line = "" end ->
  groupby _is_blank (run ++ rest) = (false, run) :: groupby _is_blank rest.
Proof.
  intros Hne Hrun Hrest.
  induction Hrun as [|x run Hx Hrun IH]; [done|].
  cbn [app groupby]. rewrite (_is_blank_false x Hx).
  destruct run as [|y run].
  - cbn [app]. destruct rest as [|line rest]; [done|]. subst line.
    destruct (groupby _is_blank ("" :: rest)) as [|[b g] gs] eqn:Hg; [done|].
    by rewrite (groupby_head_key _ _ _ _ _ _ Hg).
  - by rewrite IH.
Qed.

Lemma input_paragraphs_run run :
  run <> [] -> Forall (fun line => line <> "") run ->
  input_paragraphs run = [run].
Proof.
  intros Hne Hrun. unfold input_paragraphs.
  rewrite <- (app_nil_r run) at 1. by rewrite groupby_run.
Qed.

Lemma input_paragraphs_blank l :
  input_paragraphs ("" :: l) = input_paragraphs l.
Proof.
  unfold input_paragraphs. cbn [groupby _is_blank String.eqb].
  destruct (groupby _is_blank l) as [|[[] g] gs]; reflexivity.
Qed.

Lemma input_paragraphs_cons x l :
  x <> "" ->
  input_paragraphs (x :: l) =
  match l with
  | [] => [[x]]
  | y :: _ =>
      if _is_blank y then [x] :: input_paragraphs l
      else
        match input_paragraphs l with
        | p :: ps => (x :: p) :: ps
        | [] => [[x]]
        end
  end.
Proof.
  intros Hx. unfold input_paragraphs. cbn [groupby].
  rewrite (_is_blank_false x Hx).
  destruct l as [|y l]; [done|].
  destruct (groupby _is_blank (y :: l)) as [|[b g] gs] eqn:Hg.
  - simpl in Hg.
    by destruct (groupby _is_blank l) as [|[? ?] ?];
      [|destruct (Bool.eqb _ _)].
  - rewrite (groupby_head_key _ _ _ _ _ _ Hg).
    by destruct (_is_blank y).
Qed.

Lemma input_paragraphs_nonblank_head y l :
  y <> "" -> input_paragraphs (y :: l) <> [].
Proof.
  intros Hy. rewrite input_paragraphs_cons by done.
  destruct l as [|z l]; [done|].
  destruct (_is_blank z); [done|]. by destruct (input_paragraphs (z :: l)).
Qed.

(** The input paragraphs are not empty and hold no blank line, and put end
    to end they are the lines that are not blank, in their order. *)
Lemma input_paragraphs_invariant source :
  Forall (fun p => p <> [] /\ Forall (fun line => line <> "") p)
    (input_paragraphs source) /\
  concat (input_paragraphs source) =
  List.filter (fun line => negb (_is_blank line)) source.
Proof.
  induction source as [|x l [IHall IHcat]]; [by split|].
  destruct (String.eqb_spec x "") as [->|Hx].
  - by rewrite input_paragraphs_blank.
  - rewrite input_paragraphs_cons by done.
    cbn [List.filter]. rewrite (_is_blank_false x Hx). cbn [negb].
    destruct l as [|y l].
    + split; [|done]. repeat constructor; done.
    + destruct (_is_blank y) eqn:Hy.
      * split; [|by rewrite <- IHcat]. constructor; [|done].
        split; [done|]. by repeat constructor.
      * destruct (input_paragraphs (y :: l)) as [|p ps] eqn:Hp.
        { exfalso. apply (input_paragraphs_nonblank_head y l); [|done].
          intros ->. done. }
        apply Forall_cons in IHall as [[Hp1 Hp2] Hps].
        split; [|by rewrite <- IHcat].
        constructor; [|done]. split; [done|]. by constructor.
Qed.

(** A blank line separates: the paragraphs of two sequences of lines with
    a blank line between them are those of the first, then those of the
    second. *)
Lemma input_paragraphs_across_blank a b :
  input_paragraphs (a ++ "" :: b) = input_paragraphs a ++ input_paragraphs b.
Proof.
  induction a as [|x a IH]; [apply input_paragraphs_blank|].
  destruct (String.eqb_spec x "") as [->|Hx].
  - cbn [app]. by rewrite !input_paragraphs_blank.
  - cbn [app]. rewrite !input_paragraphs_cons by done.
    destruct a as [|y a].
    + cbn [app]. by rewrite input_paragraphs_blank.
    + cbn [app] in *. destruct (_is_blank y) eqn:Hy; [by rewrite IH|].
      rewrite IH.
      destruct (input_paragraphs (y :: a)) as [|p ps] eqn:Hp; [|done].
      exfalso. apply (input_paragraphs_nonblank_head y a); [|done].
      by intros ->.
Qed.

(** C9. A line is a separator exactly when it is the empty string. An
    empty line separates: the paragraphs of two sequences of lines with an
    empty line between them are those of the first, then those of the
    second, [parse_body] goes on from the elements of the first, and two
    runs of lines around an empty line are two input paragraphs. A line of
    white space only is not blank, so the same two runs with only such a
    line between them are one input paragraph, which [parse_body] gives to
    the classifier in one call. *)
Theorem C9_only_empty_lines_separate run1 run2 ws :
  ws <> "" -> Py.sall Py.isspace ws = true ->
  Forall (fun line => line <> "") run1 ->
  Forall (fun line => line <> "") run2 ->
  (forall line, _is_blank line = true <-> line = "") /\
  _is_blank ws = false /\
  input_paragraphs (run1 ++ ws :: run2) = [run1 ++ ws :: run2] /\
  parse_body (run1 ++ ws :: run2) = update_list (run1 ++ ws :: run2) [] /\
  (forall a b,
     input_paragraphs (a ++ "" :: b) =
     input_paragraphs a ++ input_paragraphs b) /\
  (forall a b,
     parse_body (a ++ "" :: b) =
     foldl (fun out lines => update_list lines out)
       (parse_body a) (input_paragraphs b)) /\
  (run1 <> [] -> run2 <> [] ->
   input_paragraphs (run1 ++ "" :: run2) = [run1; run2] /\
   parse_body (run1 ++ "" :: run2) =
   update_list run2 (update_list run1 [])).
Proof.
  intros Hws _ Hrun1 Hrun2.
  assert (Hpara : input_paragraphs (run1 ++ ws :: run2) = [run1 ++ ws :: run2]).
  { apply input_paragraphs_run; [by destruct run1|].
    apply Forall_app. split; [done|]. by constructor. }
  split; [apply _is_blank_spec|].
  split; [by apply _is_blank_false|].
  split; [done|].
  split; [by rewrite parse_body_fold, Hpara|].
  split; [apply input_paragraphs_across_blank|].
  split.
  { intros a b.
    by rewrite !parse_body_fold, input_paragraphs_across_blank, foldl_app. }
  intros Hne1 Hne2.
  assert (Htwo : input_paragraphs (run1 ++ "" :: run2) = [run1; run2]).
  { rewrite input_paragraphs_across_blank.
    by rewrite (input_paragraphs_run run1), (input_paragraphs_run run2). }
  split; [done|]. by rewrite parse_body_fold, Htwo.
Qed.

(** ** The two branches of [parse] *)

Lemma takewhile_spec {A} (p : A -> bool) (l : list A) :
  Forall (fun x => p x = true) (takewhile p l).1 /\
  (l = (takewhile p l).1 /\ (takewhile p l).2 = [] \/
   exists x, p x = false /\ l = (takewhile p l).1 ++ x :: (takewhile p l).2).
Proof.
  induction l as [|x l [IH1 IH2]]; simpl.
  - split; [constructor|]. by left.
  - destruct (p x) eqn:Hpx.
    + destruct (takewhile p l) as [taken rest]. simpl in *.
      split; [by constructor|].
      destruct IH2 as [[-> ->]|(y & Hy & ->)]; [by left|].
      right. by exists y.
    + split; [constructor|]. right. by exists x.
Qed.

Lemma parse_body_blank_end run :
  Forall (fun line => line <> "") run ->
  parse_body (run ++ [""]) = parse_body run.
Proof.
  intros Hrun. unfold parse_body.
  destruct run as [|x run]; [done|].
  rewrite groupby_run by done.
  rewrite <- (app_nil_r (x :: run)) at 2. by rewrite groupby_run.
Qed.

Lemma nonblank_line (line : string) :
  negb (String.eqb line "") = true <-> line <> "".
Proof.
  rewrite negb_true_iff. split.
  - intros Hne ->. by rewrite String.eqb_refl in Hne.
  - intros Hne. destruct (String.eqb line "") eqn:Heq; [|done].
    by apply String.eqb_eq in Heq.
Qed.

(** The lines that the second branch of [parse] chains are the
    preprocessed lines, with one more blank line at the end when they had
    none. *)
Lemma parse_rechained source :
  parse_body (leading_block source ++ [""] ++ remaining_lines source) =
  parse_body (map _preprocess_line source).
Proof.
  unfold leading_block, remaining_lines.
  destruct (takewhile_spec (fun line => negb (String.eqb line ""))
              (map _preprocess_line source))
    as [Hlead [[Hall ->]|(x & Hx & Hsplit)]].
  - rewrite <- Hall. rewrite parse_body_blank_end; [done|].
    rewrite Hall at 1. eapply Forall_impl; [exact Hlead|].
    intros line. apply nonblank_line.
  - rewrite Hsplit at 3. do 2 f_equal. simpl. f_equal.
    apply negb_false_iff, String.eqb_eq in Hx. by subst x.
Qed.

Lemma parse_unfold source :
  parse source =
  if title_page_truthy (parse_title_page (leading_block source))
  then parse_body (remaining_lines source)
  else parse_body (leading_block source ++ [""] ++ remaining_lines source).
Proof.
  unfold parse, leading_block, remaining_lines.
  by destruct (takewhile _ _).
Qed.

(** C3. When the leading block is no title page, [parse] gives the
    elements of the whole preprocessed input parsed as body: the leading
    lines, the blank line and the remaining lines, in their order. *)
Theorem C3_failed_title_page_reparses_all source :
  parse_title_page (leading_block source) = None ->
  parse source = parse_body (map _preprocess_line source).
Proof.
  intros Hfail. rewrite parse_unfold, Hfail. apply parse_rechained.
Qed.

End Classifier.

(** ** The title page *)

Lemma title_page_loop_eq line it result :
  title_page_loop line it result =
  match Re.rmatch title_page_key_re line with
  | None => None
  | Some key_match =>
      let key := group_text 1 key_match in
      let value := group_text 2 key_match in
      if truthy (Some value) then
        match it with
        | [] => Some (setdefault_append key value result)
        | line' :: it' =>
            title_page_loop line' it' (setdefault_append key value result)
        end
      else title_page_values key it result
  end.
Proof. by destruct it. Qed.

Lemma title_page_entries_cons expect line lines :
  title_page_entries expect (line :: lines) =
  let as_key_line :=
    match Re.rmatch title_page_key_re line with
    | None => None
    | Some m =>
        let key := group_text 1 m in
        let value := group_text 2 m in
        if truthy (Some value)
        then cons (key, value) <$> title_page_entries KeyLine lines
        else title_page_entries (ValueLine key) lines
    end in
  match expect with
  | KeyLine => as_key_line
  | ValueLine key =>
      match Re.rmatch title_page_value_re line with
      | Some m =>
          cons (key, group_text 1 m)
            <$> title_page_entries (ValueLine key) lines
      | None => as_key_line
      end
  end.
Proof. reflexivity. Qed.

Lemma title_page_values_cons key line it result :
  title_page_values key (line :: it) result =
  match Re.rmatch title_page_value_re line with
  | None => title_page_loop line it result
  | Some value_match =>
      title_page_values key it
        (setdefault_append key (group_text 1 value_match) result)
  end.
Proof. reflexivity. Qed.

(** The loops of [parse_title_page] record the entries of the block, in
    the order of its lines. *)
Lemma title_page_loops_entries it :
  (forall line result,
     title_page_loop line it result =
     (fun es => add_entries es result)
       <$> title_page_entries KeyLine (line :: it)) /\
  (forall key result,
     title_page_values key it result =
     (fun es => add_entries es result)
       <$> title_page_entries (ValueLine key) it).
Proof.
  induction it as [|line' it [IHkey IHvalue]].
  - split; [|done].
    intros line result.
    rewrite title_page_loop_eq, title_page_entries_cons. cbv zeta.
    destruct (Re.rmatch title_page_key_re line) as [m|]; [|done].
    by destruct (truthy _).
  - assert (Hkey : forall line result,
      title_page_loop line (line' :: it) result =
      (fun es => add_entries es result)
        <$> title_page_entries KeyLine (line :: line' :: it)).
    { intros line result.
      rewrite title_page_loop_eq, (title_page_entries_cons _ line).
      cbv zeta.
      destruct (Re.rmatch title_page_key_re line) as [m|]; [|done].
      destruct (truthy _).
      - rewrite IHkey.
        by destruct (title_page_entries KeyLine (line' :: it)).
      - rewrite title_page_values_cons, (title_page_entries_cons _ line').
        cbv zeta.
        destruct (Re.rmatch title_page_value_re line') as [vm|].
        + rewrite IHvalue. by destruct (title_page_entries _ it).
        + rewrite IHkey. by rewrite (title_page_entries_cons _ line'). }
    split; [exact Hkey|].
    intros key result.
    rewrite title_page_values_cons, (title_page_entries_cons _ line').
    cbv zeta.
    destruct (Re.rmatch title_page_value_re line') as [vm|].
    + rewrite IHvalue. by destruct (title_page_entries _ it).
    + rewrite IHkey. by rewrite (title_page_entries_cons _ line').
Qed.

Lemma parse_title_page_entries lines :
  parse_title_page lines =
  (fun es => add_entries es ∅) <$> title_page_entries KeyLine lines.
Proof.
  destruct lines as [|line it]; [done|].
  apply title_page_loops_entries.
Qed.

Lemma lookup_setdefault_append key value result k :
  setdefault_append key value result !! k =
  if decide (key = k) then Some (default [] (result !! key) ++ [value])
  else result !! k.
Proof.
  unfold setdefault_append. rewrite lookup_insert.
  destruct (decide (key = k)); by simplify_eq.
Qed.

Lemma values_of_cons key k v entries :
  values_of key ((k, v) :: entries) =
  if decide (k = key) then v :: values_of key entries
  else values_of key entries.
Proof.
  unfold values_of. simpl.
  destruct (decide (k = key)) as [Heq|Hne].
  - by rewrite bool_decide_eq_true_2.
  - by rewrite bool_decide_eq_false_2.
Qed.

(** A key of the dictionary holds its old values, then its values among
    the entries in their order. *)
Lemma lookup_add_entries entries result key :
  add_entries entries result !! key =
  match values_of key entries with
  | [] => result !! key
  | values => Some (default [] (result !! key) ++ values)
  end.
Proof.
  revert result. induction entries as [|[k v] entries IH]; intros result.
  - done.
  - change (add_entries ((k, v) :: entries) result)
      with (add_entries entries (setdefault_append k v result)).
    rewrite IH, values_of_cons, lookup_setdefault_append.
    destruct (decide (k = key)) as [->|Hne]; [|done].
    destruct (values_of key entries) as [|v' values]; [done|].
    cbn. by rewrite <- app_assoc.
Qed.

Lemma add_entries_empty entries :
  add_entries entries ∅ = ∅ <-> entries = [].
Proof.
  split; [|by intros ->].
  destruct entries as [|[k v] entries]; [done|].
  intros Hempty.
  assert (Hk : add_entries ((k, v) :: entries) ∅ !! k = None)
    by (by rewrite Hempty).
  rewrite lookup_add_entries, values_of_cons in Hk.
  by destruct (decide (k = k)).
Qed.

(** C2, as the code has it. When the block is a title page, the
    dictionary holds exactly the keys that have a value among the entries
    of the block (keys are compared as strings, case included), and for
    each of them its values in the order of the lines: the value of the
    key's own line, the indented lines after a key without value, and the
    values of later lines of the same key.  The dictionary itself keeps no
    order of the keys. *)
Theorem C2_title_page_values_in_input_order lines d :
  parse_title_page lines = Some d ->
  exists entries,
    title_page_entries KeyLine lines = Some entries /\
    forall key,
      d !! key =
      match values_of key entries with
      | [] => None
      | values => Some values
      end.
Proof.
  rewrite parse_title_page_entries.
  destruct (title_page_entries KeyLine lines) as [entries|]; [|done].
  intros [= <-]. exists entries. split; [done|].
  intros key. rewrite lookup_add_entries, lookup_empty.
  by destruct (values_of key entries).
Qed.

Section TopLevel.

Context `{RichString}.

(** C1, as the code has it. When the title-page algorithm accepts the
    leading block line by line, [parse_title_page] returns a dictionary.
    When the block has an entry, [parse] takes the block as the title page
    and makes the elements from the remaining lines only; when it has none
    (a block like the single line [Key:]), the dictionary is empty, [parse]
    reads it as no title page, and the elements are those of the whole
    input parsed as body. *)
Theorem C1_title_page_consumed_when_not_empty source entries :
  title_page_entries KeyLine (leading_block source) = Some entries ->
  exists d,
    parse_title_page (leading_block source) = Some d /\
    (entries <> [] -> parse source = parse_body (remaining_lines source)) /\
    (entries = [] ->
     d = ∅ /\ parse source = parse_body (map _preprocess_line source)).
Proof.
  intros Hentries. exists (add_entries entries ∅).
  assert (Hparse : parse_title_page (leading_block source) =
                   Some (add_entries entries ∅))
    by (by rewrite parse_title_page_entries, Hentries).
  split; [done|].
  rewrite parse_unfold, Hparse. unfold title_page_truthy.
  split.
  - intros Hne. rewrite bool_decide_eq_false_2; [done|].
    by rewrite add_entries_empty.
  - intros ->. split; [done|]. cbn. apply parse_rechained.
Qed.

End TopLevel.

(** ** Strings *)

Lemma str_app_cons c s t : String c s +:+ t = String c (s +:+ t).
Proof. reflexivity. Qed.

Lemma str_app_nil_l s : "" +:+ s = s.
Proof. reflexivity. Qed.

Lemma str_app_assoc s t u : (s +:+ t) +:+ u = s +:+ t +:+ u.
Proof.
  induction s as [|c s IH]; [done|]. by rewrite !str_app_cons, IH.
Qed.

Lemma str_length_app s t :
  String.length (s +:+ t) = String.length s + String.length t.
Proof.
  induction s as [|c s IH]; [done|].
  rewrite str_app_cons. simpl. by rewrite IH.
Qed.

Lemma take_length_app s t : Py.take (String.length s) (s +:+ t) = s.
Proof.
  induction s as [|c s IH]; [by destruct t|].
  rewrite str_app_cons. simpl. by rewrite IH.
Qed.

Lemma sall_app p s t : Py.sall p (s +:+ t) = Py.sall p s && Py.sall p t.
Proof.
  induction s as [|c s IH]; [done|].
  rewrite str_app_cons. simpl. by rewrite IH, andb_assoc.
Qed.

Lemma upper_cons c s :
  Py.upper (String c s) = String (Py.toupper c) (Py.upper s).
Proof. reflexivity. Qed.

Lemma upper_app s t : Py.upper (s +:+ t) = Py.upper s +:+ Py.upper t.
Proof.
  induction s as [|c s IH]; [done|].
  by rewrite str_app_cons, !upper_cons, str_app_cons, IH.
Qed.

(** [s.lstrip()] drops a run of white space, and what is left does not
    start with white space. *)
Lemma lstrip_split s :
  exists w,
    s = w +:+ Py.lstrip s /\ Py.sall Py.isspace w = true /\
    match Py.lstrip s with
    | EmptyString => True
    | String c _ => Py.isspace c = false
    end.
Proof.
  induction s as [|c s (w & Hs & Hw & Hhead)]; [by exists ""|].
  unfold Py.lstrip in *. simpl.
  destruct (Py.isspace c) eqn:Hc.
  - exists (String c w). rewrite str_app_cons, <- Hs. simpl. by rewrite Hc, Hw.
  - exists "". by rewrite Hc.
Qed.

Lemma lstrip_id_head c t :
  Py.lstrip (String c t) = String c t -> Py.isspace c = false.
Proof.
  unfold Py.lstrip. simpl. destruct (Py.isspace c) eqn:Hc; [|done].
  intros Heq. apply (f_equal String.length) in Heq.
  destruct (lstrip_split t) as (w & Hsplit & _ & _).
  apply (f_equal String.length) in Hsplit. rewrite str_length_app in Hsplit.
  unfold Py.lstrip in *. simpl in Heq. lia.
Qed.

Lemma endswith_unfold s p :
  Py.endswith s p =
  String.eqb s p ||
  match s with
  | EmptyString => false
  | String _ s' => Py.endswith s' p
  end.
Proof. by destruct s. Qed.

(** Whether a string ends with a character depends on its end only. *)
Lemma endswith_char_app s c t a :
  Py.endswith (s +:+ String c t) (String a "") =
  Py.endswith (String c t) (String a "").
Proof.
  induction s as [|b s IH]; [done|].
  rewrite str_app_cons, endswith_unfold, IH.
  replace (String.eqb (String b (s +:+ String c t)) (String a ""))
    with false; [done|].
  simpl. destruct (Ascii.eqb b a); [|done]. by destruct s.
Qed.

Lemma endswith_char_spaces c back a :
  c <> a -> Py.isspace a = false -> Py.sall Py.isspace back = true ->
  Py.endswith (String c back) (String a "") = false.
Proof.
  intros Hc Ha. revert c Hc.
  induction back as [|d back IH]; intros c Hc Hback.
  - simpl. by destruct (Ascii.eqb_spec c a).
  - simpl in Hback. apply andb_true_iff in Hback as [Hd Hback].
    rewrite endswith_unfold, IH; [|by intros ->; rewrite Ha in Hd|done].
    simpl. by destruct (Ascii.eqb c a).
Qed.

Lemma endswith_caret_not_two_spaces line :
  Py.endswith line "^" = true -> Py.endswith line TWOSPACE = false.
Proof.
  induction line as [|c s IH]; [done|].
  rewrite !(endswith_unfold (String c s)).
  intros Hend. apply orb_true_iff in Hend as [Heq|Hend].
  - by apply String.eqb_eq in Heq as [= -> ->].
  - rewrite (IH Hend), orb_false_r.
    by destruct (String.eqb_spec (String c s) TWOSPACE) as [[= -> ->]|].
Qed.

(** ** The matcher *)

Lemma consumed_app s t : Re.consumed (s +:+ t) t = s.
Proof.
  unfold Re.consumed. rewrite str_length_app.
  replace (String.length s + String.length t - String.length t)
    with (String.length s) by lia.
  apply take_length_app.
Qed.

Lemma consumed_refl s : Re.consumed s s = "".
Proof. unfold Re.consumed. rewrite Nat.sub_diag. by destruct s. Qed.

Lemma lit_eq c c' : Re.lit c c' = true -> c' = c.
Proof. unfold Re.lit. intros Heq. by apply Ascii.eqb_eq in Heq. Qed.

Lemma rep_unfold greedy p lo hi s k :
  Re.rep greedy p lo hi s k =
  let more (_ : unit) :=
    match s, hi with
    | String c s', None =>
        if p c then Re.rep greedy p (pred lo) None s' k else None
    | String c s', Some (S h) =>
        if p c then Re.rep greedy p (pred lo) (Some h) s' k else None
    | _, _ => None
    end in
  let stop (_ : unit) :=
    match lo with
    | 0 => k s
    | S _ => None
    end in
  if greedy then
    match more tt with Some r => Some r | None => stop tt end
  else
    match stop tt with Some r => Some r | None => more tt end.
Proof. by destruct s. Qed.

(** A quantifier that matches has read at least [lo] characters of its
    class, and the rest of the pattern matches after them. *)
Lemma rep_sound greedy p lo hi s k x :
  Re.rep greedy p lo hi s k = Some x ->
  exists pre s',
    s = pre +:+ s' /\ Py.sall p pre = true /\
    lo <= String.length pre /\ k s' = Some x.
Proof.
  revert lo hi.
  induction s as [|c s IH]; intros lo hi; rewrite rep_unfold; cbv zeta.
  - assert (Hk : k "" = Some x ->
      exists pre s', "" = pre +:+ s' /\ Py.sall p pre = true /\
                     0 <= String.length pre /\ k s' = Some x)
      by (intros Hk; by exists "", "").
    destruct greedy, lo; try done. by destruct (k "").
  - assert (Hstop :
      match lo with 0 => k (String c s) | S _ => None end = Some x ->
      exists pre s', String c s = pre +:+ s' /\ Py.sall p pre = true /\
                     lo <= String.length pre /\ k s' = Some x).
    { destruct lo; [|done]. intros Hk. by exists "", (String c s). }
    assert (Hmore : forall hi',
      (if p c then Re.rep greedy p (pred lo) hi' s k else None) = Some x ->
      exists pre s', String c s = pre +:+ s' /\ Py.sall p pre = true /\
                     lo <= String.length pre /\ k s' = Some x).
    { intros hi'. destruct (p c) eqn:Hpc; [|done]. intros Hrep.
      apply IH in Hrep as (pre & s' & -> & Hpre & Hlo & Hk).
      exists (String c pre), s'. repeat split; [|simpl; lia|done].
      simpl. by rewrite Hpc. }
    destruct greedy.
    + destruct hi as [[|h]|].
      * apply Hstop.
      * destruct (if p c then _ else _) eqn:Hm;
          [intros [= <-]; by eapply Hmore|apply Hstop].
      * destruct (if p c then _ else _) eqn:Hm;
          [intros [= <-]; by eapply Hmore|apply Hstop].
    + destruct (match lo with 0 => _ | S _ => _ end) eqn:Hs;
        [intros [= <-]; by apply Hstop|].
      destruct hi as [[|h]|]; [done|apply Hmore..].
Qed.

(** A greedy star that can read all of [w] and no more goes on after [w]
    when the rest of the pattern matches there. *)
Lemma rep_greedy_max p s w body k x :
  s = w +:+ body -> Py.sall p w = true ->
  match body with EmptyString => True | String c _ => p c = false end ->
  k body = Some x ->
  Re.rep true p 0 None s k = Some x.
Proof.
  intros -> Hw Hbody Hk. induction w as [|a w IH].
  - rewrite str_app_nil_l, rep_unfold. cbv zeta.
    destruct body as [|c body]; [done|]. by rewrite Hbody.
  - simpl in Hw. apply andb_true_iff in Hw as [Ha Hw].
    rewrite str_app_cons, rep_unfold. cbv zeta. rewrite Ha.
    cbn [pred]. by rewrite (IH Hw).
Qed.

(** A lazy quantifier on a string of its class stops somewhere, when the
    rest of the pattern matches at the end of the string. *)
Lemma rep_lazy_first p lo s k :
  lo <= String.length s -> Py.sall p s = true -> is_Some (k "") ->
  exists pre s',
    s = pre +:+ s' /\ lo <= String.length pre /\
    Re.rep false p lo None s k = k s' /\ is_Some (k s').
Proof.
  revert lo. induction s as [|c s IH]; intros lo Hlo Hs Hk.
  - exists "", "". simpl in Hlo. destruct lo; [|lia].
    split; [done|]. split; [done|]. split; [|done].
    rewrite rep_unfold. cbv zeta. by destruct (k "").
  - simpl in Hs. apply andb_true_iff in Hs as [Hc Hs].
    rewrite rep_unfold. cbv zeta. rewrite Hc.
    destruct lo as [|lo].
    + destruct (k (String c s)) as [x|] eqn:Hstop.
      * exists "", (String c s).
        split; [done|]. split; [simpl; lia|]. by rewrite Hstop.
      * destruct (IH 0) as (pre & s' & -> & _ & Hrep & Hsome);
          [lia|done|done|].
        exists (String c pre), s'.
        split; [done|]. split; [simpl; lia|]. done.
    + destruct (IH lo) as (pre & s' & -> & Hpre & Hrep & Hsome);
        [simpl in Hlo; lia|done|done|].
      exists (String c pre), s'.
      split; [done|]. split; [simpl; lia|]. done.
Qed.

(** A lazy quantifier stops after [pre] when the rest of the pattern
    matches there and at no earlier place. *)
Lemma rep_lazy_at p lo pre s' k x :
  Py.sall p pre = true -> lo <= String.length pre -> k s' = Some x ->
  (forall pre1 s1,
     pre +:+ s' = pre1 +:+ s1 -> lo <= String.length pre1 ->
     String.length pre1 < String.length pre -> k s1 = None) ->
  Re.rep false p lo None (pre +:+ s') k = Some x.
Proof.
  revert lo. induction pre as [|a pre IH]; intros lo Hpre Hlo Hk Hfirst.
  - simpl in Hlo. destruct lo; [|lia].
    rewrite str_app_nil_l, rep_unfold. cbv zeta. by rewrite Hk.
  - simpl in Hpre. apply andb_true_iff in Hpre as [Ha Hpre].
    rewrite str_app_cons, rep_unfold. cbv zeta. rewrite Ha.
    assert (Hrec : Re.rep false p (pred lo) None (pre +:+ s') k = Some x).
    { apply IH; [done|simpl in Hlo; lia|done|].
      intros pre1 s1 Hsplit Hlo1 Hlen.
      apply (Hfirst (String a pre1) s1).
      - by rewrite !str_app_cons, Hsplit.
      - simpl. lia.
      - simpl. lia. }
    destruct lo as [|lo]; [|done].
    rewrite (Hfirst "" (String a (pre +:+ s'))); [done|done|simpl; lia..].
Qed.

(** One step of a proof that follows a match: through a quantifier, and
    through a single character. *)
Ltac rep_step H pre s Hpre :=
  apply rep_sound in H as (pre & s & -> & Hpre & _ & H).

Ltac chr_step H c s Hc :=
  destruct s as [|c s]; [done|];
  match type of H with
  | (if ?b then _ else _) = Some _ => destruct b eqn:Hc; [|done]
  end.

Ltac eqb_cases :=
  repeat match goal with
  | |- context [Ascii.eqb ?a ?b] =>
      destruct (Ascii.eqb_spec a b); subst; cbn -[Ascii.eqb] in *; try done
  end.

(** ** The patterns *)

(** A line that [centered_re] matches ends with [<] and white space. *)
Lemma centered_shape line m :
  Re.rmatch centered_re line = Some m ->
  exists front back,
    line = front +:+ String "<" back /\ Py.sall Py.isspace back = true.
Proof.
  unfold Re.rmatch, centered_re.
  cbn [Re.seq Re.run Re.star Re.lazy_star Re.chr].
  intros Hrun.
  rep_step Hrun p1 s1 Hp1. chr_step Hrun c1 s1 Hc1.
  rep_step Hrun p2 s2 Hp2. rep_step Hrun p3 s3 Hp3. rep_step Hrun p4 s4 Hp4.
  chr_step Hrun c2 s4 Hc2. apply lit_eq in Hc2 as ->.
  rep_step Hrun p5 s5 Hp5.
  exists (p1 +:+ String c1 (p2 +:+ p3 +:+ p4)), (p5 +:+ s5).
  split.
  - by rewrite !str_app_assoc, !str_app_cons, !str_app_assoc.
  - rewrite sall_app. apply andb_true_iff. split; [done|].
    destruct s5 as [|c [|? ?]]; [done| |done].
    by destruct (Ascii.eqb_spec c Py.NL) as [->|].
Qed.

Lemma centered_not_caret line :
  Py.endswith line "^" = true -> matches centered_re line = false.
Proof.
  intros Hend. unfold matches.
  destruct (Re.rmatch centered_re line) as [m|] eqn:Hm; [|done].
  apply centered_shape in Hm as (front & back & -> & Hback).
  by rewrite endswith_char_app, endswith_char_spaces in Hend.
Qed.

(** The three patterns of [slug_regexes] start with [I] or [E]. *)
Lemma slug_regexes_first_char x u :
  existsb (fun regex => matches regex (String x u)) slug_regexes = true ->
  x = "I"%char \/ x = "E"%char.
Proof.
  destruct (Re.lit "I" x) eqn:HI; [left; by apply lit_eq|].
  destruct (Re.lit "E" x) eqn:HE; [right; by apply lit_eq|].
  unfold slug_regexes, matches, Re.rmatch.
  cbn [existsb Re.seq Re.run Re.str Re.chr String.length Nat.eqb].
  by rewrite Nat.eqb_refl, HI, HE.
Qed.

(** A match of [slug_re] either read the period at the start of the line,
    or its first group took no part and its second starts with the first
    character of the line. *)
Lemma slug_match_shape c rest m :
  Re.rmatch slug_re (String c rest) = Some m ->
  c = "."%char \/
  (Re.group 1 m = None /\ exists pre, group_text 2 m = String c pre).
Proof.
  intros Hrun.
  destruct (Re.lit "." c) eqn:Hdot; [left; by apply lit_eq|]. right.
  revert Hrun. unfold Re.rmatch, slug_re.
  cbn [Re.seq Re.run Re.star Re.lazy_star Re.chr]. rewrite Hdot.
  destruct (Re.nonspace c); [|done]. intros Hrun.
  rep_step Hrun p1 s1 Hp1. rep_step Hrun p2 s2 Hp2.
  change (String c (p1 +:+ p2 +:+ s2))
    with (String c p1 +:+ p2 +:+ s2) in Hrun.
  rewrite consumed_app in Hrun.
  assert (Hm : m = [(2, String c p1)]).
  { destruct s2 as [|c2 [|? ?]]; [by injection Hrun| |done].
    destruct (Ascii.eqb c2 Py.NL); [by injection Hrun|done]. }
  subst m. split; [done|]. by exists p1.
Qed.

(** The end of [transition_re], after its second group, on a rest without
    line feed: the rest is [TO:], which is the third group, or is empty. *)
Lemma run_to_colon_eol w s caps :
  Py.sall Re.any s = true ->
  Re.run (Re.Seq (Re.Opt (Re.Grp 3 (Re.str "TO:"))) Re.Eol) w s caps
    (fun _ c => Some c) =
  if String.eqb s "TO:" then Some ((3, "TO:") :: caps)
  else if String.eqb s "" then Some caps else None.
Proof.
  intros Hs. unfold Re.any in Hs.
  destruct s as [|c1 [|c2 [|c3 [|c4 s]]]];
    cbn [Re.run Re.str Re.chr]; unfold Re.lit; cbn -[Ascii.eqb] in *;
    eqb_cases.
  all: try done; by destruct s.
Qed.

Lemma transition_re_unfold line :
  Re.rmatch transition_re line =
  let rest_of (s : string) (caps : Re.captures) :=
    Re.rep true Re.space 0 None s (fun s2 =>
      Re.rep false Re.any 1 None s2 (fun s3 =>
        Re.run (Re.Seq (Re.Opt (Re.Grp 3 (Re.str "TO:"))) Re.Eol) line s3
          ((2, Re.consumed s2 s3) :: caps) (fun _ c => Some c))) in
  match
    match line with
    | String c s1 =>
        if Re.lit ">" c then rest_of s1 [(1, Re.consumed line s1)] else None
    | EmptyString => None
    end
  with
  | Some res => Some res
  | None => rest_of line [(1, Re.consumed line line)]
  end.
Proof. reflexivity. Qed.

(** The second and third groups of [transition_re] on a text without line
    feed: together they are the text, and the third is [TO:] when it took
    part. *)
Lemma transition_text_to_colon w body caps :
  body <> "" -> Py.sall Re.any body = true ->
  exists text to_colon,
    Re.rep false Re.any 1 None body (fun s3 =>
      Re.run (Re.Seq (Re.Opt (Re.Grp 3 (Re.str "TO:"))) Re.Eol) w s3
        ((2, Re.consumed body s3) :: caps) (fun _ c => Some c)) =
    Some (match to_colon with Some t => [(3, t)] | None => [] end
            ++ (2, text) :: caps) /\
    text <> "" /\
    text +:+ default "" to_colon = body /\
    (to_colon = None \/ to_colon = Some "TO:").
Proof.
  intros Hbody Hany.
  set (k := fun s3 => Re.run _ w s3 ((2, Re.consumed body s3) :: caps) _).
  destruct (rep_lazy_first Re.any 1 body k)
    as (pre & s' & -> & Hpre & -> & Hsome).
  { destruct body; [done|simpl; lia]. }
  { done. }
  { by eexists. }
  rewrite sall_app in Hany. apply andb_true_iff in Hany as [_ Hs'].
  assert (Hne : pre <> "") by (intros ->; simpl in Hpre; lia).
  subst k. cbv beta in *.
  rewrite run_to_colon_eol, consumed_app in * by done.
  destruct (String.eqb_spec s' "TO:") as [->|_].
  { exists pre, (Some "TO:").
    split; [done|]. split; [done|]. split; [done|]. by right. }
  destruct (String.eqb_spec s' "") as [->|_].
  { exists pre, None.
    split; [done|]. split; [done|]. split; [done|]. by left. }
  by destruct Hsome.
Qed.

(** The match of [transition_re] on a line that starts with [>], when
    something other than white space follows. *)
Lemma transition_match_gt rest :
  Py.lstrip rest <> "" -> Py.sall Re.any rest = true ->
  exists m,
    Re.rmatch transition_re (String ">" rest) = Some m /\
    Re.group 1 m = Some ">" /\
    Py.upper (group_text 2 m) +:+ default "" (Re.group 3 m) =
    Py.upper (Py.lstrip rest).
Proof.
  intros Hbody Hrest.
  destruct (lstrip_split rest) as (w & Hsplit & Hw & Hhead).
  assert (Hany : Py.sall Re.any (Py.lstrip rest) = true).
  { rewrite Hsplit, sall_app in Hrest.
    by apply andb_true_iff in Hrest as [_ ?]. }
  destruct (transition_text_to_colon (String ">" rest) (Py.lstrip rest)
              [(1, Re.consumed (String ">" rest) rest)] Hbody Hany)
    as (text & to_colon & Hrun & _ & Htext & Hto).
  eexists. split; [|split].
  - rewrite transition_re_unfold. cbv zeta.
    change (Re.lit ">" ">") with true. cbv iota.
    unfold Re.space.
    match goal with
    | |- context [Re.rep true Py.isspace 0 None rest ?k] =>
        rewrite (rep_greedy_max Py.isspace rest w (Py.lstrip rest) k _
                   Hsplit Hw Hhead Hrun)
    end.
    reflexivity.
  - change (String ">" rest) with (">" +:+ rest). rewrite consumed_app.
    by destruct Hto as [-> | ->].
  - rewrite <- Htext, upper_app. by destruct Hto as [-> | ->].
Qed.

(** The match of [transition_re] on a text followed by a final [TO:], when
    the text starts with neither [>] nor white space. *)
Lemma transition_match_to_colon c t :
  c <> ">"%char -> Py.isspace c = false ->
  Py.sall Re.any (String c t) = true ->
  Re.rmatch transition_re (String c t +:+ "TO:") =
  Some [(3, "TO:"); (2, String c t); (1, "")].
Proof.
  intros Hgt Hspace Hany.
  set (text := String c t) in *. set (line := text +:+ "TO:").
  assert (Hline : Py.sall Re.any line = true)
    by (unfold line; by rewrite sall_app, Hany).
  rewrite transition_re_unfold. cbv zeta.
  replace (match line with
           | EmptyString => None
           | String c1 s1 => if Re.lit ">" c1 then _ else None
           end) with (@None Re.captures).
  2:{ unfold line, text. rewrite str_app_cons.
      destruct (Re.lit ">" c) eqn:Hlit; [|done]. by apply lit_eq in Hlit. }
  rewrite consumed_refl. unfold Re.space.
  match goal with
  | |- context [Re.rep true Py.isspace 0 None line ?k] =>
      apply (rep_greedy_max Py.isspace line "" line k)
  end; [done|done|by unfold line, text; rewrite str_app_cons|].
  unfold line at 1.
  apply rep_lazy_at; [done|simpl; lia| |].
  - rewrite run_to_colon_eol by done. unfold line. by rewrite consumed_app.
  - intros pre1 s1 Hsplit Hlo Hlen.
    assert (Hs1 : Py.sall Re.any s1 = true).
    { unfold line in Hline. rewrite Hsplit, sall_app in Hline.
      by apply andb_true_iff in Hline as [_ ?]. }
    rewrite run_to_colon_eol by done.
    apply (f_equal String.length) in Hsplit.
    rewrite !str_length_app in Hsplit.
    unfold text in *. simpl in Hsplit, Hlen.
    destruct (String.eqb_spec s1 "TO:") as [->|_]; [simpl in Hsplit; lia|].
    destruct (String.eqb_spec s1 "") as [->|_]; [simpl in Hsplit; lia|done].
Qed.

(** ** The order of the rules *)

Section Rules.

Context `{RichString}.

Lemma as_slug_first_char c rest e :
  as_slug [String c rest] = Some e ->
  c = "."%char \/ Py.toupper c = "I"%char \/ Py.toupper c = "E"%char.
Proof.
  unfold as_slug.
  destruct (Re.rmatch slug_re (String c rest)) as [m|] eqn:Hm; [|done].
  apply slug_match_shape in Hm as [->|(Hperiod & pre & Htext)]; [by left|].
  rewrite Hperiod, Htext, upper_cons. cbn [truthy negb andb].
  destruct (existsb _ slug_regexes) eqn:Hprefix; [|done].
  intros _. right. by apply slug_regexes_first_char in Hprefix.
Qed.

(** A line that is a slug is neither a synopsis nor a section. *)
Lemma as_slug_excludes line prev e :
  as_slug [line] = Some e ->
  as_synopsis [line] prev = (None, prev) /\ as_section [line] = None.
Proof.
  destruct line as [|c rest]; [done|].
  intros Hslug. apply as_slug_first_char in Hslug.
  assert (Heq : "="%char <> c).
  { intros <-. by destruct Hslug as [|[|]]. }
  assert (Hhash : Re.lit "#" c = false).
  { apply Ascii.eqb_neq. intros <-. by destruct Hslug as [|[|]]. }
  split.
  - unfold as_synopsis. cbn [Py.startswith].
    apply Ascii.eqb_neq in Heq. rewrite Heq.
    by destruct (pop prev) as [[? ?]|].
  - unfold as_section, Re.rmatch, section_re.
    cbn [Re.seq Re.run String.length Nat.eqb]. rewrite Nat.eqb_refl.
    rewrite rep_unfold. cbv zeta. by rewrite Hhash.
Qed.

Lemma update_list_transition line prev e :
  as_synopsis [line] prev = (None, prev) -> as_section [line] = None ->
  as_slug [line] = None -> as_centered_action [line] = None ->
  as_transition [line] = Some e ->
  update_list [line] prev = prev ++ [e].
Proof.
  intros Hsyn Hsec Hslug Hcen Htr. unfold update_list.
  rewrite Hsyn, Hsec, Hslug, Hcen.
  change (as_dialog [line] prev) with (@None Element, prev).
  by rewrite Htr.
Qed.

(** C6. On every paragraph [update_list] appends the element of one rule:
    the first rule, in the order synopsis, section, slug, centered action,
    dialog, transition, action, whose method returns an element.  A line
    that is both a slug and a transition (there are such lines) becomes
    the [Slug]; the last rule, action, returns an element on every
    paragraph. *)
Theorem C6_first_matching_rule_wins :
  (forall lines prev,
     exists rule e prev',
       first_match precedence lines prev = Some (rule, e, prev') /\
       update_list lines prev = prev' ++ [e]) /\
  (forall line prev e_slug e_transition,
     as_slug [line] = Some e_slug ->
     as_transition [line] = Some e_transition ->
     update_list [line] prev = prev ++ [e_slug]) /\
  (exists line, is_Some (as_slug [line]) /\ is_Some (as_transition [line])) /\
  (forall lines prev,
     rule_value RAction lines prev = (Some (as_action lines), prev)).
Proof.
  split; [|split; [|split]].
  - intros lines prev. unfold update_list, precedence, first_match, rule_value.
    destruct (as_synopsis lines prev) as [[e|] prev1]; [by eexists _, _, _|].
    destruct (as_section lines); [by eexists _, _, _|].
    destruct (as_slug lines); [by eexists _, _, _|].
    destruct (as_centered_action lines); [by eexists _, _, _|].
    destruct (as_dialog lines prev1) as [[e|] prev2]; [by eexists _, _, _|].
    destruct (as_transition lines); by eexists _, _, _.
  - intros line prev e_slug e_transition Hslug _.
    destruct (as_slug_excludes line prev e_slug Hslug) as [Hsyn Hsec].
    unfold update_list. by rewrite Hsyn, Hsec, Hslug.
  - exists ".CUT TO:". split; by eexists.
  - done.
Qed.

(** C10. A paragraph of two lines or more whose first line is upper case
    and ends with [^], classified when the list of previous elements is
    empty or ends with an element that is no [Dialog], becomes a plain
    [Dialog] whose character is the whole first line, marker included. *)
Theorem C10_marker_kept_without_previous_dialog first rest prev :
  rest <> [] ->
  Py.isupper first = true ->
  Py.endswith first "^" = true ->
  match last prev with Some e => is_Dialog e = false | None => True end ->
  update_list (first :: rest) prev =
  prev ++ [Dialog (parse_emphasis first)
             (map parse_emphasis (map Py.strip rest)) None].
Proof.
  intros Hrest Hupper Hcaret Hprev.
  destruct rest as [|second rest]; [done|].
  unfold update_list.
  change (as_synopsis (first :: second :: rest) prev)
    with (@None Element, prev).
  cbv beta iota.
  change (as_section (first :: second :: rest)) with (@None Element).
  change (as_slug (first :: second :: rest)) with (@None Element).
  unfold as_centered_action. cbn [forallb].
  rewrite (centered_not_caret first Hcaret). cbn [andb negb].
  unfold as_dialog. cbn [length Nat.ltb Nat.leb nth].
  rewrite Hupper, (endswith_caret_not_two_spaces first Hcaret).
  cbn [negb orb]. unfold pop.
  destruct (last prev) as [e|]; [rewrite Hprev|]; reflexivity.
Qed.

(** C4, as the code has it. Let a paragraph of one line, without line
    feed inside, be no synopsis, section, slug or centered action (it is
    no dialog, having one line).  When the line starts with [>] at its
    first character and something other than white space follows, the
    paragraph becomes the [Transition] of what follows the [>], without
    its leading white space, in upper case (a [TO:] at its end is kept).
    When the line is a text followed by a final [TO:], the text being
    upper case, not empty, and starting with neither [>] nor white space,
    the paragraph becomes the [Transition] of the line as it is. *)
Theorem C4_transition_of_one_line line prev :
  as_synopsis [line] prev = (None, prev) -> as_section [line] = None ->
  as_slug [line] = None -> as_centered_action [line] = None ->
  Py.sall Re.any line = true ->
  (forall rest,
     line = String ">" rest -> Py.lstrip rest <> "" ->
     update_list [line] prev =
     prev ++
     [Transition (parse_emphasis (Py.upper (Py.lstrip rest))) None]) /\
  (forall text,
     line = text +:+ "TO:" -> text <> "" ->
     Py.startswith text ">" = false -> Py.lstrip text = text ->
     Py.isupper text = true ->
     update_list [line] prev =
     prev ++ [Transition (parse_emphasis line) None]).
Proof.
  intros Hsyn Hsec Hslug Hcen Hany. split.
  - intros rest -> Hbody.
    apply update_list_transition; [done..|].
    destruct (transition_match_gt rest Hbody) as (m & Hm & Hg1 & Hg23);
      [by cbn [Py.sall] in Hany; apply andb_true_iff in Hany as [_ ?]|].
    unfold as_transition. rewrite Hm, Hg1. cbn [truthy]. by rewrite Hg23.
  - intros text -> Htext Hgt Hstrip Hupper.
    apply update_list_transition; [done..|].
    destruct text as [|c t]; [done|].
    rewrite sall_app in Hany. apply andb_true_iff in Hany as [Hany _].
    unfold as_transition.
    rewrite transition_match_to_colon;
      [|intros ->; by simpl in Hgt|by apply (lstrip_id_head c t)|done].
    unfold group_text. cbn. by rewrite Hupper.
Qed.

End Rules.

(** * The specification's examples, and where the code differs *)

Section Examples.

Local Existing Instance markup.

(** The other examples of the specification: the scene number of a slug,
    the two spaces that keep a line from being a character, a section and
    a centered action. *)
Example slug_with_scene_number :
  update_list ["INT. HOUSE #1A#"] [] =
  [Slug (Emphasis "INT. HOUSE") (Some (Plain "1A")) None].
Proof. vm_compute. reflexivity. Qed.

Example two_spaces_escape_dialog :
  parse_body ["ALICE  "; "hi"] =
  [Action [Emphasis "ALICE"; Emphasis "hi"] false None].
Proof. vm_compute. reflexivity. Qed.

Example section_of_level_three :
  update_list ["### Act one"] [] = [Section (Emphasis "Act one") 3 None] /\
  update_list ["####### Act one"] [] =
  [Action [Emphasis "####### Act one"] false None].
Proof. split; vm_compute; reflexivity. Qed.

Example centered_the_end :
  update_list ["  > THE END <  "] [] =
  [Action [Emphasis "THE END"] true None].
Proof. vm_compute. reflexivity. Qed.

Example tabs_and_line_ends :
  _preprocess_line
    (String Py.TAB (String "a" (String Py.TAB
       (String "b" (String Py.CR (String Py.NL "")))))) = "    a   b".
Proof. vm_compute. reflexivity. Qed.

Example spaces_survive_preprocessing :
  _preprocess_line (String " " (String " " (String Py.NL ""))) = "  " /\
  _preprocess_line (String Py.CR (String Py.NL "")) = "".
Proof. split; vm_compute; reflexivity. Qed.

(** C1: a title page with two entries is taken off the input. *)
Lemma C1_witness_title_and_author :
  title_page_entries KeyLine
    (leading_block ["Title: My Play"; "Author: me"; ""; "INT. HOUSE - DAY"]) =
  Some [("Title", "My Play"); ("Author", "me")] /\
  parse ["Title: My Play"; "Author: me"; ""; "INT. HOUSE - DAY"] =
  parse_body
    (remaining_lines
       ["Title: My Play"; "Author: me"; ""; "INT. HOUSE - DAY"]) /\
  parse ["Title: My Play"; "Author: me"; ""; "INT. HOUSE - DAY"] =
  [Slug (Emphasis "INT. HOUSE - DAY") None None].
Proof.
  assert (Hentries :
    title_page_entries KeyLine
      (leading_block ["Title: My Play"; "Author: me"; ""; "INT. HOUSE - DAY"]) =
    Some [("Title", "My Play"); ("Author", "me")])
    by (vm_compute; reflexivity).
  destruct (C1_title_page_consumed_when_not_empty _ _ Hentries)
    as (d & _ & Hconsumed & _).
  split; [exact Hentries|].
  split; [by apply Hconsumed|].
  rewrite Hconsumed by done. vm_compute. reflexivity.
Defined.

(** C1 fails on the block [Key:], a key without value: the dictionary is
    empty, [parse] reads it as no title page, and the line of the block
    comes back as an [Action] before the elements of the remaining lines.
    It fails too on a block whose lines each match one of the two
    patterns, a value line after a key line with a value: that block is no
    title page. *)
Lemma C1_counterexample_key_without_value :
  leading_block ["Key:"; ""; "INT. HOUSE - DAY"] = ["Key:"] /\
  matches title_page_key_re "Key:" = true /\
  parse_title_page ["Key:"] = Some ∅ /\
  parse_body (remaining_lines ["Key:"; ""; "INT. HOUSE - DAY"]) =
  [Slug (Emphasis "INT. HOUSE - DAY") None None] /\
  parse ["Key:"; ""; "INT. HOUSE - DAY"] =
  [Action [Emphasis "Key:"] false None;
   Slug (Emphasis "INT. HOUSE - DAY") None None] /\
  matches title_page_key_re "Title: My Play" = true /\
  matches title_page_value_re "    by me" = true /\
  parse_title_page ["Title: My Play"; "    by me"] = None.
Proof. repeat split; vm_compute; reflexivity. Qed.

(** C2: a key with indented values, a key with its value on its line, and
    the first key once more. *)
Lemma C2_witness_values_of_title :
  parse_title_page
    ["Title:"; "    My Play"; "    part two"; "Author: me"; "Title: again"] =
  Some (<["Title" := ["My Play"; "part two"; "again"]]>
          (<["Author" := ["me"]]> ∅)) /\
  title_page_entries KeyLine
    ["Title:"; "    My Play"; "    part two"; "Author: me"; "Title: again"] =
  Some [("Title", "My Play"); ("Title", "part two"); ("Author", "me");
        ("Title", "again")] /\
  (<["Title" := ["My Play"; "part two"; "again"]]>
     (<["Author" := ["me"]]> ∅) : gmap string (list string)) !! "Title" =
  Some ["My Play"; "part two"; "again"].
Proof.
  assert (Hparse :
    parse_title_page
      ["Title:"; "    My Play"; "    part two"; "Author: me"; "Title: again"] =
    Some (<["Title" := ["My Play"; "part two"; "again"]]>
            (<["Author" := ["me"]]> ∅)))
    by (vm_compute; reflexivity).
  destruct (C2_title_page_values_in_input_order _ _ Hparse)
    as (entries & Hentries & Hvalues).
  split; [exact Hparse|].
  assert (Hcomputed :
    title_page_entries KeyLine
      ["Title:"; "    My Play"; "    part two"; "Author: me"; "Title: again"] =
    Some [("Title", "My Play"); ("Title", "part two"); ("Author", "me");
          ("Title", "again")])
    by (vm_compute; reflexivity).
  split; [exact Hcomputed|].
  rewrite Hcomputed in Hentries. injection Hentries as <-.
  by rewrite Hvalues.
Defined.

(** C2 fails on the order of the keys: the dictionary is the same whether
    [b] or [a] comes first in the block, so that no way of iterating it
    gives the keys in the order of their first appearance for both
    blocks. *)
Lemma C2_counterexample_no_order_of_keys :
  parse_title_page ["b: 2"; "a: 1"] =
  Some (<["a" := ["1"]]> (<["b" := ["2"]]> ∅)) /\
  parse_title_page ["a: 1"; "b: 2"] =
  Some (<["a" := ["1"]]> (<["b" := ["2"]]> ∅)) /\
  parse_title_page ["b: 2"; "a: 1"] = parse_title_page ["a: 1"; "b: 2"] /\
  ~ (exists keys : option (gmap string (list string)) -> list string,
       keys (parse_title_page ["b: 2"; "a: 1"]) = ["b"; "a"] /\
       keys (parse_title_page ["a: 1"; "b: 2"]) = ["a"; "b"]).
Proof.
  assert (Hsame :
    parse_title_page ["b: 2"; "a: 1"] = parse_title_page ["a: 1"; "b: 2"])
    by (vm_compute; reflexivity).
  split; [vm_compute; reflexivity|].
  split; [vm_compute; reflexivity|].
  split; [exact Hsame|].
  intros (keys & Hb & Ha). rewrite Hsame, Ha in Hb. discriminate.
Qed.

(** C3: the example of the specification, a first block whose second line
    is no key line. *)
Lemma C3_witness_wrong_line :
  parse_title_page
    (leading_block ["Title: My Play"; "Wrong line"; ""; "INT. HOUSE - DAY"]) =
  None /\
  parse ["Title: My Play"; "Wrong line"; ""; "INT. HOUSE - DAY"] =
  parse_body
    (map _preprocess_line
       ["Title: My Play"; "Wrong line"; ""; "INT. HOUSE - DAY"]) /\
  parse ["Title: My Play"; "Wrong line"; ""; "INT. HOUSE - DAY"] =
  [Action [Emphasis "Title: My Play"; Emphasis "Wrong line"] false None;
   Slug (Emphasis "INT. HOUSE - DAY") None None].
Proof.
  assert (Hfail :
    parse_title_page
      (leading_block
         ["Title: My Play"; "Wrong line"; ""; "INT. HOUSE - DAY"]) = None)
    by (vm_compute; reflexivity).
  split; [exact Hfail|].
  split; [exact (C3_failed_title_page_reparses_all _ Hfail)|].
  rewrite (C3_failed_title_page_reparses_all _ Hfail).
  vm_compute. reflexivity.
Defined.

(** C4: a line that starts with [>], and an upper-case line that ends with
    [TO:]. *)
Lemma C4_witness_cut_to :
  update_list [">cut to:"] [] = [Transition (Emphasis "CUT TO:") None] /\
  update_list ["CUT TO:"] [] = [Transition (Emphasis "CUT TO:") None].
Proof.
  split.
  - destruct (C4_transition_of_one_line ">cut to:" []) as [Hgt _];
      [vm_compute; reflexivity..|].
    apply (Hgt "cut to:"); [reflexivity|]. vm_compute. discriminate.
  - destruct (C4_transition_of_one_line "CUT TO:" []) as [_ Hto];
      [vm_compute; reflexivity..|].
    apply (Hto "CUT "); [reflexivity|discriminate|reflexivity..].
Defined.

(** C4 fails on a line with white space before the [>]: it is no synopsis,
    section, slug, centered action or dialog, what is left of it without
    its leading white space starts with [>], and it becomes an [Action].
    The second part fails on upper-case lines that end with [TO:]: the
    line [TO:] and a line without letter before [TO:] become an [Action],
    and a line with leading white space loses it.  A [>] with nothing
    after it, and a [>] followed by a text with a line feed inside, become
    an [Action] too. *)
Lemma C4_counterexample_space_before_marker :
  as_synopsis ["  >foo"] [] = (None, []) /\
  as_section ["  >foo"] = None /\
  as_slug ["  >foo"] = None /\
  as_centered_action ["  >foo"] = None /\
  as_dialog ["  >foo"] [] = (None, []) /\
  Py.startswith (Py.lstrip "  >foo") ">" = true /\
  update_list ["  >foo"] [] = [Action [Emphasis "  >foo"] false None] /\
  Py.isupper "TO:" = true /\ Py.endswith "TO:" "TO:" = true /\
  update_list ["TO:"] [] = [Action [Emphasis "TO:"] false None] /\
  Py.isupper "1 TO:" = true /\ Py.endswith "1 TO:" "TO:" = true /\
  update_list ["1 TO:"] [] = [Action [Emphasis "1 TO:"] false None] /\
  Py.isupper " CUT TO:" = true /\ Py.endswith " CUT TO:" "TO:" = true /\
  update_list [" CUT TO:"] [] = [Transition (Emphasis "CUT TO:") None] /\
  update_list [">"] [] = [Action [Emphasis ">"] false None] /\
  update_list [String ">" (String "a" (String Py.NL "b"))] [] =
  [Action [Emphasis (String ">" (String "a" (String Py.NL "b")))] false None].
Proof. repeat split; vm_compute; reflexivity. Qed.

(** C8: the example of the specification. *)
Lemma C8_witness_tense_scene :
  update_list ["INT. HOUSE - DAY"] [] =
  [Slug (Emphasis "INT. HOUSE - DAY") None None] /\
  has_set_synopsis (Slug (Emphasis "INT. HOUSE - DAY") None None) = true /\
  update_list ["=A tense scene"]
    [Slug (Emphasis "INT. HOUSE - DAY") None None] =
  [Slug (Emphasis "INT. HOUSE - DAY") None (Some "A tense scene")].
Proof.
  split; [vm_compute; reflexivity|].
  split; [reflexivity|].
  exact (C8_synopsis_attaches_to_previous "A tense scene" []
           (Slug (Emphasis "INT. HOUSE - DAY") None None) eq_refl).
Defined.

(** C9: a line of two spaces between two lines, and an empty line
    between the same two lines. *)
Lemma C9_witness_line_of_spaces :
  _is_blank "  " = false /\
  input_paragraphs ["ALICE"; "  "; "hi"] = [["ALICE"; "  "; "hi"]] /\
  parse_body ["ALICE"; "  "; "hi"] =
  [Dialog (Emphasis "ALICE") [Emphasis ""; Emphasis "hi"] None] /\
  input_paragraphs ["ALICE"; ""; "hi"] = [["ALICE"]; ["hi"]] /\
  parse_body ["ALICE"; ""; "hi"] =
  [Action [Emphasis "ALICE"] false None; Action [Emphasis "hi"] false None].
Proof.
  destruct (C9_only_empty_lines_separate ["ALICE"] ["hi"] "  ")
    as (_ & Hblank & Hpara & Hbody & _ & _ & Hsep).
  - discriminate.
  - reflexivity.
  - by repeat constructor.
  - by repeat constructor.
  - destruct Hsep as [Htwo Hbody2]; [discriminate|discriminate|].
    split; [exact Hblank|]. split; [exact Hpara|].
    split; [cbn [app] in Hbody; rewrite Hbody; vm_compute; reflexivity|].
    split; [exact Htwo|].
    cbn [app] in Hbody2. rewrite Hbody2. vm_compute. reflexivity.
Defined.

(** C10: Bob's paragraph with no previous element, and after a slug. *)
Lemma C10_witness_bob_alone :
  update_list ["BOB ^"; "hey"] [] =
  [Dialog (Emphasis "BOB ^") [Emphasis "hey"] None] /\
  update_list ["BOB ^"; "hey"] [Slug (Emphasis "INT. HOUSE") None None] =
  [Slug (Emphasis "INT. HOUSE") None None;
   Dialog (Emphasis "BOB ^") [Emphasis "hey"] None].
Proof.
  assert (Hrest : ["hey"] <> @nil string) by discriminate.
  split.
  - exact (C10_marker_kept_without_previous_dialog "BOB ^" ["hey"] []
             Hrest eq_refl eq_refl I).
  - exact (C10_marker_kept_without_previous_dialog "BOB ^" ["hey"]
             [Slug (Emphasis "INT. HOUSE") None None]
             Hrest eq_refl eq_refl eq_refl).
Defined.

End Examples.

(** * Further properties of the parser *)

(** ** Paragraphs and elements *)

Section Counting.
Context `{RichString}.

Lemma update_list_length lines prev :
  length prev <= length (update_list lines prev) <= S (length prev) /\
  update_list lines prev <> [].
Proof.
  unfold update_list.
  destruct (as_synopsis_cases lines prev)
    as [-> | (init & last & text & -> & Hcap & ->)].
  - assert (Happ : forall e,
      length prev <= length (prev ++ [e]) <= S (length prev) /\
      prev ++ [e] <> []).
    { intros e. rewrite length_app. simpl. split; [lia|]. by destruct prev. }
    destruct (as_section lines); [apply Happ|].
    destruct (as_slug lines); [apply Happ|].
    destruct (as_centered_action lines); [apply Happ|].
    destruct (as_dialog_cases lines prev)
      as [-> | [(d & _ & ->) | (init & last & d & -> & Hl & Hd & ->)]].
    + destruct (as_transition lines); apply Happ.
    + apply Happ.
    + rewrite !length_app. simpl. split; [lia|]. by destruct init.
  - rewrite !length_app. simpl. split; [lia|]. by destruct init.
Qed.

Lemma foldl_update_list_length paragraphs out :
  length (foldl (fun out lines => update_list lines out) out paragraphs) <=
  length out + length paragraphs.
Proof.
  revert out. induction paragraphs as [|p ps IH]; intros out; simpl; [lia|].
  specialize (IH (update_list p out)).
  destruct (update_list_length p out) as [[_ Hle] _]. lia.
Qed.

Lemma foldl_update_list_nonempty paragraphs out :
  out <> [] \/ paragraphs <> [] ->
  foldl (fun out lines => update_list lines out) out paragraphs <> [].
Proof.
  revert out. induction paragraphs as [|p ps IH]; intros out Hne; simpl.
  - by destruct Hne.
  - apply IH. left. apply update_list_length.
Qed.

(** X3. [parse_body] returns at most one element for each input
    paragraph, and returns no element exactly when every line is blank
    (an empty input included). *)
Theorem X3_parse_body_count source :
  length (parse_body source) <= length (input_paragraphs source) /\
  (parse_body source = [] <-> Forall (fun line => line = "") source).
Proof.
  rewrite parse_body_fold. split.
  - apply (foldl_update_list_length _ []).
  - split.
    + intros Hempty.
      destruct (input_paragraphs source) as [|p ps] eqn:Hp.
      * destruct (input_paragraphs_invariant source) as [_ Hcat].
        rewrite Hp in Hcat. simpl in Hcat.
        clear Hp Hempty. induction source as [|x l IH]; [done|].
        simpl in Hcat. destruct (_is_blank x) eqn:Hx; [|done].
        constructor; [by apply _is_blank_spec|by apply IH].
      * exfalso. revert Hempty. apply foldl_update_list_nonempty. by right.
    + intros Hblank.
      assert (Hp : input_paragraphs source = []).
      { induction Hblank as [|x l -> _ IH]; [done|].
        by rewrite input_paragraphs_blank. }
      by rewrite Hp.
Qed.

(** X1. The input paragraphs that [parse_body] hands to the classifier are
    not empty and hold no blank line; put end to end they are the lines of
    the source that are not blank, in their order: no line is lost, added
    or moved. *)
Theorem X1_input_paragraphs_keep_every_line source :
  Forall (fun p => p <> [] /\ Forall (fun line => line <> "") p)
    (input_paragraphs source) /\
  concat (input_paragraphs source) =
  List.filter (fun line => negb (_is_blank line)) source.
Proof. apply input_paragraphs_invariant. Qed.

(** X2. A blank line separates: the input paragraphs of [a], a blank line
    and [b] are those of [a] followed by those of [b], and [parse_body]
    of the whole goes on from the elements of [a] with the paragraphs of
    [b]. *)
Theorem X2_parse_body_across_blank_line a b :
  input_paragraphs (a ++ "" :: b) = input_paragraphs a ++ input_paragraphs b /\
  parse_body (a ++ "" :: b) =
  foldl (fun out lines => update_list lines out) (parse_body a)
    (input_paragraphs b).
Proof.
  split; [apply input_paragraphs_across_blank|].
  by rewrite !parse_body_fold, input_paragraphs_across_blank, foldl_app.
Qed.
End Counting.

(** ** What a paragraph does to the previous elements *)

Lemma sany_app p s t : Py.sany p (s +:+ t) = Py.sany p s || Py.sany p t.
Proof.
  induction s as [|c s IH]; [done|].
  rewrite str_app_cons. simpl. by rewrite IH, orb_assoc.
Qed.

(** A line that [dual_dialog_re] matches has a [^]. *)
Lemma dual_dialog_has_caret line m :
  Re.rmatch dual_dialog_re line = Some m ->
  Py.sany (Ascii.eqb "^") line = true.
Proof.
  unfold Re.rmatch, dual_dialog_re.
  cbn [Re.seq Re.run Re.star Re.lazy_plus Re.chr].
  rewrite Nat.eqb_refl. intros Hrun.
  rep_step Hrun p1 s1 Hp1. rep_step Hrun p2 s2 Hp2.
  chr_step Hrun c s2 Hc. apply lit_eq in Hc as ->.
  rewrite !sany_app. simpl. by rewrite !orb_true_r.
Qed.

Section Appending.
Context `{RichString}.

Lemma update_list_appends lines prev :
  as_synopsis lines prev = (None, prev) ->
  (as_dialog lines prev).2 = prev ->
  exists e, update_list lines prev = prev ++ [e].
Proof.
  intros Hsyn Hdia. unfold update_list. rewrite Hsyn.
  destruct (as_section lines); [by eexists|].
  destruct (as_slug lines); [by eexists|].
  destruct (as_centered_action lines); [by eexists|].
  destruct (as_dialog lines prev) as [[d|] prev']; simpl in Hdia; subst prev'.
  - by eexists.
  - destruct (as_transition lines); by eexists.
Qed.

(** X4. A paragraph whose first line does not start with [=] and has no
    [^] leaves the previous elements as they are: [update_list] appends
    one element to them. *)
Theorem X4_previous_untouched_without_marker lines prev :
  match lines with
  | first :: _ =>
      Py.startswith first "=" = false /\ Py.sany (Ascii.eqb "^") first = false
  | [] => True
  end ->
  exists e, update_list lines prev = prev ++ [e].
Proof.
  intros Hfirst. apply update_list_appends.
  - unfold as_synopsis. destruct lines as [|line [|? ?]]; try done.
    destruct Hfirst as [-> _]. by destruct (pop prev) as [[? ?]|].
  - unfold as_dialog. destruct (length lines <? 2); [done|].
    destruct (negb _ || _); [done|].
    destruct (pop prev) as [[previous popped]|]; [|done].
    destruct (is_Dialog previous); [|done].
    destruct lines as [|first rest]; [done|].
    destruct (Re.rmatch dual_dialog_re (nth 0 (first :: rest) ""))
      as [m|] eqn:Hm; [|done].
    apply dual_dialog_has_caret in Hm. destruct Hfirst as [_ Hcaret].
    cbn [nth] in Hm. by rewrite Hcaret in Hm.
Qed.

(** X5. A [DualDialog] at the end of the list is never replaced: whatever
    the next paragraph, [update_list] appends one element after it (it has
    no [set_synopsis] and is no [Dialog]). *)
Theorem X5_dual_dialog_is_final lines prev left right :
  exists e,
    update_list lines (prev ++ [DualDialog left right]) =
    prev ++ [DualDialog left right; e].
Proof.
  destruct (update_list_appends lines (prev ++ [DualDialog left right]))
    as [e He].
  - unfold as_synopsis. destruct lines as [|line [|? ?]]; try done.
    rewrite pop_snoc. cbn [has_set_synopsis]. by rewrite andb_false_r.
  - unfold as_dialog. rewrite pop_snoc. cbn [is_Dialog].
    destruct (length lines <? 2); [done|]. by destruct (negb _ || _).
  - exists e. by rewrite He, <- app_assoc.
Qed.

(** X6. A paragraph of two lines or more becomes an [Action], a [Dialog]
    or a [DualDialog], without synopsis: never a slug, a section or a
    transition, and it is never read as a synopsis. *)
Theorem X6_several_lines_are_action_or_dialog l1 l2 rest prev :
  exists e prev',
    update_list (l1 :: l2 :: rest) prev = prev' ++ [e] /\
    match e with
    | Action _ _ None | Dialog _ _ None | DualDialog _ _ => True
    | _ => False
    end.
Proof.
  unfold update_list.
  change (as_synopsis (l1 :: l2 :: rest) prev) with (@None Element, prev).
  cbv beta iota.
  change (as_section (l1 :: l2 :: rest)) with (@None Element).
  change (as_slug (l1 :: l2 :: rest)) with (@None Element).
  change (as_transition (l1 :: l2 :: rest)) with (@None Element).
  unfold as_centered_action.
  destruct (negb (forallb _ _)); [|by eexists _, _].
  unfold as_dialog. cbn [length Nat.ltb Nat.leb].
  destruct (negb _ || _); [by eexists _, _|].
  destruct (pop prev) as [[previous popped]|]; [|by eexists _, _].
  destruct (is_Dialog previous); [|by eexists _, _].
  destruct (Re.rmatch dual_dialog_re _); by eexists _, _.
Qed.

(** X7. A paragraph of two lines or more whose first line is not upper
    case, or ends with two spaces, and which is no centered action,
    becomes an [Action] of its lines without their trailing white space;
    the previous elements are left as they are. *)
Theorem X7_no_dialog_without_upper_case_name first rest prev :
  rest <> [] ->
  Py.isupper first = false \/ Py.endswith first TWOSPACE = true ->
  as_centered_action (first :: rest) = None ->
  update_list (first :: rest) prev =
  prev ++
  [Action (map parse_emphasis (map Py.rstrip (first :: rest))) false None].
Proof.
  intros Hrest Hescape Hcen.
  destruct rest as [|second rest]; [done|].
  unfold update_list.
  change (as_synopsis (first :: second :: rest) prev)
    with (@None Element, prev).
  cbv beta iota.
  change (as_section (first :: second :: rest)) with (@None Element).
  change (as_slug (first :: second :: rest)) with (@None Element).
  change (as_transition (first :: second :: rest)) with (@None Element).
  rewrite Hcen. unfold as_dialog. cbn [length Nat.ltb Nat.leb nth].
  replace (negb (Py.isupper first) || Py.endswith first TWOSPACE)
    with true; [done|].
  destruct Hescape as [-> | ->]; [done|by rewrite orb_true_r].
Qed.
End Appending.

(** ** Sections *)

Lemma rep_sound_hi greedy p lo h s k x :
  Re.rep greedy p lo (Some h) s k = Some x ->
  exists pre s',
    s = pre +:+ s' /\ Py.sall p pre = true /\
    lo <= String.length pre <= h /\ k s' = Some x.
Proof.
  revert lo h.
  induction s as [|c s IH]; intros lo h; rewrite rep_unfold; cbv zeta.
  - assert (Hk : k "" = Some x ->
      exists pre s', "" = pre +:+ s' /\ Py.sall p pre = true /\
                     0 <= String.length pre <= h /\ k s' = Some x).
    { intros Hk. exists "", "". repeat split; try done; simpl; lia. }
    destruct greedy, lo; try done. by destruct (k "").
  - assert (Hstop :
      match lo with 0 => k (String c s) | S _ => None end = Some x ->
      exists pre s', String c s = pre +:+ s' /\ Py.sall p pre = true /\
                     lo <= String.length pre <= h /\ k s' = Some x).
    { destruct lo; [|done]. intros Hk. exists "", (String c s).
      repeat split; try done; simpl; lia. }
    assert (Hmore : forall h',
      h = S h' ->
      (if p c then Re.rep greedy p (pred lo) (Some h') s k else None) =
      Some x ->
      exists pre s', String c s = pre +:+ s' /\ Py.sall p pre = true /\
                     lo <= String.length pre <= h /\ k s' = Some x).
    { intros h' ->. destruct (p c) eqn:Hpc; [|done]. intros Hrep.
      apply IH in Hrep as (pre & s' & -> & Hpre & Hlo & Hk).
      exists (String c pre), s'.
      repeat split; try done; try (simpl; lia).
      simpl. by rewrite Hpc. }
    destruct greedy.
    + destruct h as [|h']; [apply Hstop|].
      destruct (if p c then _ else _) eqn:Hm;
        [intros [= <-]; by eapply Hmore|apply Hstop].
    + destruct (match lo with 0 => _ | S _ => _ end) eqn:Hs;
        [intros [= <-]; by apply Hstop|].
      destruct h as [|h']; [done|by apply Hmore].
Qed.

Lemma lstrip_by_app p pre s :
  Py.sall p pre = true ->
  match s with EmptyString => True | String c _ => p c = false end ->
  Py.lstrip_by p (pre +:+ s) = s.
Proof.
  intros Hpre Hs. induction pre as [|a pre IH].
  - rewrite str_app_nil_l. destruct s as [|c s]; [done|]. simpl. by rewrite Hs.
  - simpl in Hpre. apply andb_true_iff in Hpre as [Ha Hpre].
    rewrite str_app_cons. simpl. rewrite Ha. by apply IH.
Qed.

Lemma section_match_shape line m :
  Re.rmatch section_re line = Some m ->
  exists hashes rest,
    line = hashes +:+ rest /\
    Py.sall (Ascii.eqb "#") hashes = true /\
    1 <= String.length hashes <= 6 /\
    match rest with EmptyString => False | String c _ => c <> "#"%char end /\
    Re.group 1 m = Some hashes.
Proof.
  unfold Re.rmatch, section_re.
  cbn [Re.seq Re.run Re.star Re.chr]. rewrite Nat.eqb_refl. intros Hrun.
  apply rep_sound_hi in Hrun as (hashes & s1 & -> & Hhashes & Hlen & Hrun).
  rewrite consumed_app in Hrun.
  exists hashes, s1. split; [done|]. split; [done|]. split; [done|].
  apply rep_sound in Hrun as (ws & s2 & -> & Hws & _ & Hrun).
  destruct s2 as [|c s2]; [done|].
  destruct (negb (Ascii.eqb c "#")) eqn:Hc; [|done].
  apply negb_true_iff, Ascii.eqb_neq in Hc.
  apply rep_sound in Hrun as (p3 & s3 & -> & _ & _ & Hrun).
  split.
  - destruct ws as [|w ws]; [done|]. rewrite str_app_cons.
    simpl in Hws. apply andb_true_iff in Hws as [Hw _]. by intros ->.
  - destruct s3 as [|c3 [|? ?]]; [by injection Hrun as <-| |done].
    destruct (Ascii.eqb c3 Py.NL); [by injection Hrun as <-|done].
Qed.

Section SectionLevel.
Context `{RichString}.

(** X8. When a line is a section, its level is the number of [#] at the
    start of the line, and is between 1 and 6. *)
Theorem X8_section_level_counts_hashes line e :
  as_section [line] = Some e ->
  exists text level,
    e = Section text level None /\
    1 <= level <= 6 /\
    level =
    String.length line - String.length (Py.lstrip_by (Ascii.eqb "#") line).
Proof.
  unfold as_section.
  destruct (Re.rmatch section_re line) as [m|] eqn:Hm; [|done].
  intros [= <-].
  apply section_match_shape in Hm
    as (hashes & rest & -> & Hhashes & Hlen & Hrest & Hg1).
  eexists _, _. split; [done|].
  unfold group_text. rewrite Hg1. cbn [default from_option id].
  split; [done|].
  rewrite lstrip_by_app, str_length_app; [lia|done|].
  destruct rest as [|c rest]; [done|].
  apply Ascii.eqb_neq. congruence.
Qed.
End SectionLevel.

Lemma str_app_nil_r s : s +:+ "" = s.
Proof. induction s as [|c s IH]; [done|]. by rewrite str_app_cons, IH. Qed.

Lemma consumed_all s : Re.consumed s "" = s.
Proof. rewrite <- (str_app_nil_r s) at 1. apply consumed_app. Qed.

Lemma rep_greedy_max_hi p lo h w body k x :
  Py.sall p w = true -> lo <= String.length w <= h ->
  match body with EmptyString => True | String c _ => p c = false end ->
  k body = Some x ->
  Re.rep true p lo (Some h) (w +:+ body) k = Some x.
Proof.
  intros Hw Hlen Hbody Hk. revert lo h Hlen.
  induction w as [|a w IH]; intros lo h Hlen.
  - simpl in Hlen. assert (lo = 0) as -> by lia.
    rewrite str_app_nil_l, rep_unfold. cbv zeta.
    destruct body as [|c body]; [by destruct h|].
    rewrite Hbody. by destruct h.
  - simpl in Hw. apply andb_true_iff in Hw as [Ha Hw]. simpl in Hlen.
    rewrite str_app_cons, rep_unfold. cbv zeta. rewrite Ha.
    destruct h as [|h]; [lia|].
    rewrite (IH Hw (pred lo) h); [done|lia].
Qed.

(** A greedy star that can read to the end of the string goes on there. *)
Lemma rep_greedy_all p s k x :
  Py.sall p s = true -> k "" = Some x -> Re.rep true p 0 None s k = Some x.
Proof.
  intros Hs Hk. apply (rep_greedy_max p s s "" k x); [|done..].
  by rewrite str_app_nil_r.
Qed.

Section SectionLine.
Context `{RichString}.

(** X9. A line of one to six [#], white space, and a text without line
    feed that starts with neither [#] nor white space becomes the
    [Section] of the text, at the level of the number of [#], whatever the
    previous elements. *)
Theorem X9_hashes_make_a_section hashes ws body prev :
  Py.sall (Ascii.eqb "#") hashes = true ->
  1 <= String.length hashes <= 6 ->
  Py.sall Py.isspace ws = true ->
  match body with
  | EmptyString => False
  | String c _ => c <> "#"%char /\ Py.isspace c = false
  end ->
  Py.sall Re.any body = true ->
  update_list [hashes +:+ ws +:+ body] prev =
  prev ++ [Section (parse_emphasis body) (String.length hashes) None].
Proof.
  intros Hhashes Hlen Hws Hbody Hany.
  destruct body as [|c body]; [done|]. destruct Hbody as [Hc Hspace].
  assert (Hsec : as_section [hashes +:+ ws +:+ String c body] =
                 Some (Section (parse_emphasis (String c body))
                         (String.length hashes) None)).
  { unfold as_section, Re.rmatch, section_re.
    cbn [Re.seq Re.run Re.star Re.chr]. rewrite Nat.eqb_refl.
    rewrite (rep_greedy_max_hi (Re.lit "#") 1 6 hashes
               (ws +:+ String c body) _
               [(2, String c body); (1, hashes)]); [done|done|done| |].
    - destruct ws as [|w ws]; [apply Ascii.eqb_neq; congruence|].
      rewrite str_app_cons. simpl in Hws.
      apply andb_true_iff in Hws as [Hw _].
      apply Ascii.eqb_neq. by intros <-.
    - rewrite consumed_app.
      apply (rep_greedy_max Py.isspace _ ws (String c body)); [done..|].
      replace (negb (Ascii.eqb c "#")) with true
        by (symmetry; by apply negb_true_iff, Ascii.eqb_neq).
      simpl in Hany. apply andb_true_iff in Hany as [_ Hany].
      apply rep_greedy_all; [done|]. by rewrite consumed_all. }
  unfold update_list.
  replace (as_synopsis [hashes +:+ ws +:+ String c body] prev)
    with (@None Element, prev).
  { by rewrite Hsec. }
  unfold as_synopsis.
  destruct hashes as [|h hashes]; [simpl in Hlen; lia|].
  cbn [Py.sall] in Hhashes. apply andb_true_iff in Hhashes as [Hh _].
  apply Ascii.eqb_eq in Hh as <-.
  rewrite str_app_cons. cbn.
  by destruct (pop prev) as [[? ?]|].
Qed.
End SectionLine.

(** ** Slugs *)

Lemma rstrip_cons_keep p c s :
  p c = false -> Py.rstrip_by p (String c s) = String c (Py.rstrip_by p s).
Proof. intros Hc. simpl. rewrite Hc. by destruct (Py.rstrip_by p s). Qed.

Lemma rstrip_split p s :
  exists w, s = Py.rstrip_by p s +:+ w /\ Py.sall p w = true.
Proof.
  induction s as [|c s (w & Hs & Hw)]; [by exists ""|].
  simpl. destruct (Py.rstrip_by p s) as [|d t] eqn:Ht.
  - rewrite str_app_nil_l in Hs. subst w.
    destruct (p c) eqn:Hc.
    + exists (String c s). simpl. by rewrite Hc, Hw.
    + exists s. by rewrite Hw.
  - exists w. by rewrite str_app_cons, <- Hs.
Qed.

Lemma str_app_inv_nil s t : s +:+ t = "" -> s = "" /\ t = "".
Proof. by destruct s. Qed.

(** What [rstrip] leaves does not end with characters of the set. *)
Lemma rstrip_no_trailing p s u v :
  Py.rstrip_by p s = u +:+ v -> v <> "" -> Py.sall p v = false.
Proof.
  revert u v. induction s as [|c s IH]; intros u v Heq Hv.
  - symmetry in Heq. by apply str_app_inv_nil in Heq as [_ ->].
  - simpl in Heq. destruct (Py.rstrip_by p s) as [|d t] eqn:Ht.
    + destruct (p c) eqn:Hc.
      * symmetry in Heq. by apply str_app_inv_nil in Heq as [_ ->].
      * destruct u as [|a u].
        { rewrite str_app_nil_l in Heq. subst v. simpl. by rewrite Hc. }
        rewrite str_app_cons in Heq. injection Heq as _ Heq.
        symmetry in Heq. by apply str_app_inv_nil in Heq as [_ ->].
    + destruct u as [|a u].
      * rewrite str_app_nil_l in Heq. subst v.
        change (Py.sall p (String c (String d t)))
          with (p c && Py.sall p (String d t)).
        rewrite (IH "" (String d t) eq_refl); [apply andb_false_r|done].
      * rewrite str_app_cons in Heq. injection Heq as _ Heq.
        by apply (IH u).
Qed.

Lemma str_app_split_shorter a b c d :
  a +:+ b = c +:+ d -> String.length c < String.length a ->
  exists v, v <> "" /\ a = c +:+ v /\ d = v +:+ b.
Proof.
  revert a. induction c as [|x c IH]; intros a Heq Hlen.
  - exists a. rewrite !str_app_nil_l in *. split; [|done].
    intros ->. simpl in Hlen. lia.
  - destruct a as [|y a]; [simpl in Hlen; lia|].
    rewrite !str_app_cons in Heq. injection Heq as -> Heq.
    destruct (IH a Heq) as (v & Hv & -> & ->); [simpl in Hlen; lia|].
    by exists v.
Qed.

Lemma rep_lazy_at_eq p lo s pre s' k x :
  s = pre +:+ s' ->
  Py.sall p pre = true -> lo <= String.length pre -> k s' = Some x ->
  (forall pre1 s1,
     s = pre1 +:+ s1 -> lo <= String.length pre1 ->
     String.length pre1 < String.length pre -> k s1 = None) ->
  Re.rep false p lo None s k = Some x.
Proof. intros ->. apply rep_lazy_at. Qed.

Lemma run_eol_no_newline w s caps :
  Py.sall Re.any s = true ->
  Re.run Re.Eol w s caps (fun _ c => Some c) =
  if String.eqb s "" then Some caps else None.
Proof.
  intros Hs. destruct s as [|c [|? ?]]; [done| |done].
  simpl in Hs. rewrite andb_true_r in Hs. unfold Re.any in Hs.
  apply negb_true_iff in Hs. cbn [Re.run]. by rewrite Hs.
Qed.

(** The second group of [slug_re] on a text without line feed that starts
    with a character that is no white space: the text without its trailing
    white space. *)
Lemma slug_text_match w c b caps :
  Py.isspace c = false -> Py.sall Re.any b = true ->
  Re.rep false Re.any 0 None b (fun s1 =>
    Re.rep true Re.space 0 None s1 (fun s2 =>
      Re.run Re.Eol w s2 ((2, Re.consumed (String c b) s1) :: caps)
        (fun _ c => Some c))) =
  Some ((2, Py.rstrip (String c b)) :: caps).
Proof.
  intros Hc Hany.
  destruct (rstrip_split Py.isspace b) as (w2 & Hb & Hw2).
  assert (Hcore : Py.sall Re.any (Py.rstrip_by Py.isspace b) = true /\
                  Py.sall Re.any w2 = true).
  { rewrite Hb, sall_app in Hany. by apply andb_true_iff in Hany. }
  destruct Hcore as [Hcore Hanyw].
  apply (rep_lazy_at_eq Re.any 0 b (Py.rstrip_by Py.isspace b) w2);
    [done|done|lia| |].
  - apply rep_greedy_all; [done|]. cbn [Re.run].
    unfold Py.rstrip. rewrite (rstrip_cons_keep _ _ _ Hc).
    rewrite Hb at 1.
    change (String c (Py.rstrip_by Py.isspace b +:+ w2))
      with (String c (Py.rstrip_by Py.isspace b) +:+ w2).
    by rewrite consumed_app.
  - intros pre1 s1 Hsplit _ Hlen.
    destruct (Re.rep true Re.space 0 None s1 _) as [y|] eqn:Hk; [|done].
    exfalso.
    apply rep_sound in Hk as (p & t & -> & Hp & _ & Hk).
    assert (Ht : Py.sall Re.any t = true).
    { rewrite Hsplit, !sall_app in Hany.
      apply andb_true_iff in Hany as [_ Hany].
      by apply andb_true_iff in Hany as [_ ?]. }
    rewrite run_eol_no_newline in Hk by done.
    destruct (String.eqb_spec t "") as [->|]; [|done].
    rewrite str_app_nil_r in Hsplit.
    rewrite Hb in Hsplit at 1.
    destruct (str_app_split_shorter _ _ _ _ Hsplit Hlen)
      as (v & Hv & Hcorev & ->).
    unfold Re.space in Hp.
    rewrite sall_app in Hp. apply andb_true_iff in Hp as [Hpv _].
    by rewrite (rstrip_no_trailing _ _ _ _ Hcorev Hv) in Hpv.
Qed.

Lemma slug_re_unfold line :
  Re.rmatch slug_re line =
  let text_of (s : string) (caps : Re.captures) :=
    match s with
    | String c0 s0 =>
        if Re.nonspace c0 then
          Re.rep false Re.any 0 None s0 (fun s1 =>
            Re.rep true Re.space 0 None s1 (fun s2 =>
              Re.run Re.Eol line s2 ((2, Re.consumed s s1) :: caps)
                (fun _ c => Some c)))
        else None
    | EmptyString => None
    end in
  match
    match line with
    | String c s' =>
        if Re.lit "." c then
          Re.rep true Re.space 0 None s' (fun s'' =>
            text_of s'' [(1, Re.consumed line s')])
        else None
    | EmptyString => None
    end
  with
  | Some res => Some res
  | None => text_of line []
  end.
Proof. reflexivity. Qed.

(** A text that [scene_number_re] matches has a [#]. *)
Lemma scene_number_has_hash text m :
  Re.rmatch scene_number_re text = Some m ->
  Py.sany (Ascii.eqb "#") text = true.
Proof.
  unfold Re.rmatch, scene_number_re.
  cbn [Re.seq Re.run Re.star Re.lazy_star Re.chr]. intros Hrun.
  rep_step Hrun p1 s1 Hp1. rep_step Hrun p2 s2 Hp2.
  chr_step Hrun c s2 Hc. apply lit_eq in Hc as ->.
  rewrite !sany_app. simpl. by rewrite !orb_true_r.
Qed.

Lemma toupper_hash c : Ascii.eqb "#" (Py.toupper c) = Ascii.eqb "#" c.
Proof. by destruct c as [[] [] [] [] [] [] [] []]. Qed.

Lemma sany_hash_upper s :
  Py.sany (Ascii.eqb "#") (Py.upper s) = Py.sany (Ascii.eqb "#") s.
Proof.
  induction s as [|c s IH]; [done|].
  rewrite upper_cons. cbn [Py.sany]. by rewrite toupper_hash, IH.
Qed.

Lemma sany_rstrip p q s :
  Py.sany q s = false -> Py.sany q (Py.rstrip_by p s) = false.
Proof.
  destruct (rstrip_split p s) as (w & Hs & _). intros Hq.
  rewrite Hs, sany_app in Hq. by apply orb_false_iff in Hq as [? _].
Qed.

Lemma sany_lstrip q s :
  Py.sany q s = false -> Py.sany q (Py.lstrip s) = false.
Proof.
  destruct (lstrip_split s) as (w & Hs & _). intros Hq.
  rewrite Hs, sany_app in Hq. by apply orb_false_iff in Hq as [_ ?].
Qed.

Lemma scene_number_none text :
  Py.sany (Ascii.eqb "#") text = false ->
  Re.rmatch scene_number_re (Py.upper text) = None.
Proof.
  intros Hhash.
  destruct (Re.rmatch scene_number_re (Py.upper text)) as [m|] eqn:Hm; [|done].
  apply scene_number_has_hash in Hm. by rewrite sany_hash_upper, Hhash in Hm.
Qed.

Section SlugLine.
Context `{RichString}.

Lemma as_slug_forced rest :
  Py.lstrip rest <> "" -> Py.sall Re.any rest = true ->
  Py.sany (Ascii.eqb "#") rest = false ->
  as_slug [String "." rest] =
  Some (Slug (parse_emphasis (Py.upper (Py.rstrip (Py.lstrip rest))))
          None None).
Proof.
  intros Hbody Hany Hhash.
  destruct (lstrip_split rest) as (w & Hsplit & Hw & Hhead).
  assert (Hanyb : Py.sall Re.any (Py.lstrip rest) = true).
  { rewrite Hsplit, sall_app in Hany. by apply andb_true_iff in Hany as [_ ?]. }
  assert (Hhashb : Py.sany (Ascii.eqb "#") (Py.rstrip (Py.lstrip rest)) = false)
    by (by apply sany_rstrip, sany_lstrip).
  destruct (Py.lstrip rest) as [|c b] eqn:Hl; [done|].
  assert (Hm : Re.rmatch slug_re (String "." rest) =
               Some [(2, Py.rstrip (String c b)); (1, ".")]).
  { rewrite slug_re_unfold. cbv zeta.
    change (Re.lit "." ".") with true. cbv iota. unfold Re.space.
    match goal with
    | |- context [Re.rep true Py.isspace 0 None rest ?k] =>
        rewrite (rep_greedy_max Py.isspace rest w (String c b) k
                   [(2, Py.rstrip (String c b)); (1, ".")] Hsplit Hw Hhead);
          [done|]
    end.
    cbv beta iota. unfold Re.nonspace. rewrite Hhead. cbn [negb].
    cbn [Py.sall] in Hanyb. apply andb_true_iff in Hanyb as [_ Hanyb].
    rewrite (slug_text_match _ c b _ Hhead Hanyb).
    change (String "." rest) with ("." +:+ rest). by rewrite consumed_app. }
  unfold as_slug. rewrite Hm.
  unfold group_text. cbn [Re.group Nat.eqb truthy negb andb].
  cbn [default from_option id].
  by rewrite (scene_number_none _ Hhashb).
Qed.

(** X10. A line that starts with a period, followed by a text without
    line feed and without [#] that is not white space only, becomes the
    [Slug] of the text without the white space around it, in upper case,
    whatever the previous elements. *)
Theorem X10_period_forces_a_slug rest prev :
  Py.lstrip rest <> "" -> Py.sall Re.any rest = true ->
  Py.sany (Ascii.eqb "#") rest = false ->
  update_list [String "." rest] prev =
  prev ++ [Slug (parse_emphasis (Py.upper (Py.rstrip (Py.lstrip rest))))
             None None].
Proof.
  intros Hbody Hany Hhash.
  pose proof (as_slug_forced rest Hbody Hany Hhash) as Hslug.
  destruct (as_slug_excludes _ prev _ Hslug) as [Hsyn Hsec].
  unfold update_list. by rewrite Hsyn, Hsec, Hslug.
Qed.

Lemma as_slug_unforced c b :
  c <> "."%char -> Py.isspace c = false ->
  Py.sall Re.any (String c b) = true ->
  Py.sany (Ascii.eqb "#") (String c b) = false ->
  as_slug [String c b] =
  if existsb (fun regex => matches regex (Py.upper (Py.rstrip (String c b))))
       slug_regexes
  then Some (Slug (parse_emphasis (Py.upper (Py.rstrip (String c b))))
               None None)
  else None.
Proof.
  intros Hdot Hspace Hany Hhash.
  assert (Hm : Re.rmatch slug_re (String c b) =
               Some [(2, Py.rstrip (String c b))]).
  { rewrite slug_re_unfold. cbv zeta.
    replace (Re.lit "." c) with false
      by (symmetry; apply Ascii.eqb_neq; congruence).
    unfold Re.nonspace. rewrite Hspace. cbn [negb].
    cbn [Py.sall] in Hany. apply andb_true_iff in Hany as [_ Hany].
    by rewrite (slug_text_match _ c b _ Hspace Hany). }
  unfold as_slug. rewrite Hm.
  unfold group_text. cbn [Re.group Nat.eqb truthy negb andb].
  cbn [default from_option id].
  destruct (existsb _ slug_regexes); [|done].
  cbn [negb]. rewrite scene_number_none; [done|].
  by apply sany_rstrip.
Qed.

(** X11. A line without line feed and without [#] that starts with
    neither a period nor white space is a slug exactly when its text
    without trailing white space, in upper case, starts as one of
    [slug_regexes] says; the [Slug] is that upper-case text. *)
Theorem X11_slug_by_prefix c b prev :
  c <> "."%char -> Py.isspace c = false ->
  Py.sall Re.any (String c b) = true ->
  Py.sany (Ascii.eqb "#") (String c b) = false ->
  (existsb (fun regex => matches regex (Py.upper (Py.rstrip (String c b))))
     slug_regexes = true ->
   update_list [String c b] prev =
   prev ++ [Slug (parse_emphasis (Py.upper (Py.rstrip (String c b))))
              None None]) /\
  (existsb (fun regex => matches regex (Py.upper (Py.rstrip (String c b))))
     slug_regexes = false ->
   as_slug [String c b] = None).
Proof.
  intros Hdot Hspace Hany Hhash.
  pose proof (as_slug_unforced c b Hdot Hspace Hany Hhash) as Hslug.
  split; intros Hprefix; rewrite Hprefix in Hslug; [|done].
  destruct (as_slug_excludes _ prev _ Hslug) as [Hsyn Hsec].
  unfold update_list. by rewrite Hsyn, Hsec, Hslug.
Qed.
End SlugLine.

(** ** Preprocessing *)

Lemma spaces_no_tab i :
  Py.sany (Ascii.eqb Py.TAB) (String.concat "" (replicate i " ")) = false.
Proof.
  induction i as [|i IH]; [done|].
  cbn [replicate String.concat].
  destruct (replicate i " ") as [|x l] eqn:Hl; [done|].
  rewrite !sany_app. by rewrite IH.
Qed.

Lemma expandtabs_no_tab tabsize j s :
  Py.sany (Ascii.eqb Py.TAB) (Py.expandtabs_from tabsize j s) = false.
Proof.
  revert j. induction s as [|c s IH]; intros j; [done|].
  cbn [Py.expandtabs_from].
  destruct (Ascii.eqb_spec c Py.TAB) as [->|Hc].
  - destruct tabsize as [|n]; [apply IH|].
    change (String.append ?a ?b) with (a +:+ b).
    by rewrite sany_app, spaces_no_tab, IH.
  - cbn [Py.sany]. rewrite IH, orb_false_r.
    apply Ascii.eqb_neq. congruence.
Qed.

Lemma expandtabs_id tabsize j s :
  Py.sany (Ascii.eqb Py.TAB) s = false ->
  Py.expandtabs_from tabsize j s = s.
Proof.
  revert j. induction s as [|c s IH]; intros j Hs; [done|].
  cbn [Py.sany] in Hs. apply orb_false_iff in Hs as [Hc Hs].
  cbn [Py.expandtabs_from].
  rewrite Ascii.eqb_sym in Hc. rewrite Hc. by rewrite IH.
Qed.

Lemma rstrip_idem p s :
  Py.rstrip_by p (Py.rstrip_by p s) = Py.rstrip_by p s.
Proof.
  induction s as [|c s IH]; [done|].
  cbn [Py.rstrip_by].
  destruct (Py.rstrip_by p s) as [|d t] eqn:Ht.
  - destruct (p c) eqn:Hc; [done|]. simpl. by rewrite Hc.
  - change (Py.rstrip_by p (String c (String d t)))
      with (match Py.rstrip_by p (String d t) with
            | EmptyString => if p c then EmptyString else String c EmptyString
            | t' => String c t'
            end).
    by rewrite IH.
Qed.

Lemma endswith_char_split s a :
  Py.endswith s (String a "") = true -> exists u, s = u +:+ String a "".
Proof.
  induction s as [|c s IH]; [done|].
  rewrite endswith_unfold. intros Hend.
  apply orb_true_iff in Hend as [Heq|Hend].
  - apply String.eqb_eq in Heq as ->. by exists "".
  - destruct (IH Hend) as [u ->]. by exists (String c u).
Qed.

Lemma endswith_app_char u a :
  Py.endswith (u +:+ String a "") (String a "") = true.
Proof.
  rewrite endswith_char_app. simpl. by rewrite Ascii.eqb_refl.
Qed.

Lemma str_last_char w :
  w <> "" -> exists w' a, w = w' +:+ String a "".
Proof.
  induction w as [|c w IH]; [done|]. intros _.
  destruct w as [|d w].
  - by exists "", c.
  - destruct IH as (w' & a & Hw); [done|].
    exists (String c w'), a. by rewrite str_app_cons, <- Hw.
Qed.

(** What [rstrip] takes no character from is left as it is. *)
Lemma rstrip_id p s :
  (forall a, p a = true -> Py.endswith s (String a "") = false) ->
  Py.rstrip_by p s = s.
Proof.
  intros Hend. destruct (rstrip_split p s) as (w & Hs & Hw).
  destruct (String.eqb_spec w "") as [->|Hne].
  - by rewrite str_app_nil_r in Hs.
  - destruct (str_last_char w Hne) as (w' & a & ->).
    rewrite sall_app in Hw. apply andb_true_iff in Hw as [_ Ha].
    cbn [Py.sall] in Ha. rewrite andb_true_r in Ha.
    specialize (Hend a Ha).
    rewrite Hs, <- str_app_assoc, endswith_app_char in Hend. done.
Qed.

Lemma rstrip_not_endswith p s a :
  p a = true -> Py.endswith (Py.rstrip_by p s) (String a "") = false.
Proof.
  intros Ha.
  destruct (Py.endswith (Py.rstrip_by p s) (String a "")) eqn:Hend; [|done].
  apply endswith_char_split in Hend as [u Hu].
  assert (Hfalse : Py.sall p (String a "") = false)
    by (by apply (rstrip_no_trailing p s u)).
  cbn [Py.sall] in Hfalse. by rewrite Ha in Hfalse.
Qed.

(** X12. A preprocessed line has no tab, does not end with a line feed or
    a carriage return, and preprocessing it again changes nothing. *)
Theorem X12_preprocess_line_normal_form raw_line :
  Py.sany (Ascii.eqb Py.TAB) (_preprocess_line raw_line) = false /\
  Py.endswith (_preprocess_line raw_line) (String Py.NL "") = false /\
  Py.endswith (_preprocess_line raw_line) (String Py.CR "") = false /\
  _preprocess_line (_preprocess_line raw_line) = _preprocess_line raw_line.
Proof.
  unfold _preprocess_line, Py.expandtabs.
  assert (Hnotab :
    Py.sany (Ascii.eqb Py.TAB)
      (Py.rstrip_by (fun c => Ascii.eqb c Py.CR || Ascii.eqb c Py.NL)
         (Py.expandtabs_from 4 0 raw_line)) = false)
    by apply sany_rstrip, expandtabs_no_tab.
  split; [done|].
  split; [by apply rstrip_not_endswith|].
  split; [by apply rstrip_not_endswith|].
  by rewrite (expandtabs_id _ _ _ Hnotab), rstrip_idem.
Qed.

(** X13. A line without tab that ends with neither a line feed nor a
    carriage return is left as it is. *)
Theorem X13_preprocess_line_keeps_clean_line line :
  Py.sany (Ascii.eqb Py.TAB) line = false ->
  Py.endswith line (String Py.NL "") = false ->
  Py.endswith line (String Py.CR "") = false ->
  _preprocess_line line = line.
Proof.
  intros Htab Hnl Hcr. unfold _preprocess_line, Py.expandtabs.
  rewrite expandtabs_id by done.
  apply rstrip_id. intros a Ha.
  apply orb_true_iff in Ha as [Ha|Ha]; apply Ascii.eqb_eq in Ha as ->; done.
Qed.

(** ** The title page and the first block *)

(** A match of [title_page_key_re]: the key is not empty and has no colon,
    and a colon follows it in the line. *)
Lemma key_match_shape line m :
  Re.rmatch title_page_key_re line = Some m ->
  group_text 1 m <> "" /\
  Py.sany (Ascii.eqb ":") (group_text 1 m) = false /\
  Py.sany (Ascii.eqb ":") line = true.
Proof.
  unfold Re.rmatch, title_page_key_re.
  cbn [Re.seq Re.run Re.star Re.plus Re.chr]. intros Hrun.
  apply rep_sound in Hrun as (key & s1 & -> & Hkey & Hlen & Hrun).
  rewrite consumed_app in Hrun.
  chr_step Hrun c s1 Hc. apply lit_eq in Hc as ->.
  rep_step Hrun p2 s2 Hp2. rep_step Hrun p3 s3 Hp3.
  injection Hrun as <-. unfold group_text. cbn.
  split; [intros ->; simpl in Hlen; lia|].
  split.
  - clear Hlen. induction key as [|a key IH]; [done|].
    cbn [Py.sall] in Hkey. apply andb_true_iff in Hkey as [Ha Hkey].
    cbn [Py.sany]. rewrite (IH Hkey), orb_false_r.
    apply negb_true_iff in Ha. by rewrite Ascii.eqb_sym.
  - rewrite sany_app. cbn [Py.sany]. rewrite Ascii.eqb_refl.
    by rewrite orb_true_r.
Qed.

(** A match of [title_page_value_re]: the value is not empty. *)
Lemma value_match_shape line m :
  Re.rmatch title_page_value_re line = Some m -> group_text 1 m <> "".
Proof.
  unfold Re.rmatch, title_page_value_re.
  cbn [Re.seq Re.run Re.plus Re.chr].
  assert (Hvalue : forall s,
    Re.rep true Re.any 1 None s
      (fun s' => Some [(1, Re.consumed s s')]) = Some m ->
    group_text 1 m <> "").
  { intros s Hrun.
    apply rep_sound in Hrun as (v & s' & -> & _ & Hlen & Hrun).
    rewrite consumed_app in Hrun. injection Hrun as <-.
    unfold group_text. cbn. intros ->. simpl in Hlen. lia. }
  destruct (Re.rep true Re.space 3 None line _) as [r|] eqn:Hfirst.
  - intros [= ->].
    apply rep_sound in Hfirst as (p1 & s1 & -> & _ & _ & Hrun).
    by apply (Hvalue s1).
  - destruct line as [|c s]; [done|].
    destruct (Re.lit Py.TAB c); [|done]. apply Hvalue.
Qed.

Lemma truthy_nonempty value : truthy (Some value) = true -> value <> "".
Proof. by destruct value. Qed.

(** Every entry of a title page has a key that is not empty and has no
    colon, and a value that is not empty. *)
Lemma title_page_entries_good expect lines entries :
  match expect with
  | KeyLine => True
  | ValueLine key => key <> "" /\ Py.sany (Ascii.eqb ":") key = false
  end ->
  title_page_entries expect lines = Some entries ->
  Forall (fun kv => kv.1 <> "" /\ Py.sany (Ascii.eqb ":") kv.1 = false /\
                    kv.2 <> "") entries.
Proof.
  revert expect entries.
  induction lines as [|line lines IH]; intros expect entries Hexpect.
  { intros [= <-]. constructor. }
  rewrite title_page_entries_cons. cbv zeta.
  assert (Hkey : forall es,
    match Re.rmatch title_page_key_re line with
    | Some m =>
        if truthy (Some (group_text 2 m))
        then cons (group_text 1 m, group_text 2 m)
               <$> title_page_entries KeyLine lines
        else title_page_entries (ValueLine (group_text 1 m)) lines
    | None => None
    end = Some es ->
    Forall (fun kv => kv.1 <> "" /\ Py.sany (Ascii.eqb ":") kv.1 = false /\
                      kv.2 <> "") es).
  { intros es.
    destruct (Re.rmatch title_page_key_re line) as [m|] eqn:Hm; [|done].
    apply key_match_shape in Hm as (Hne & Hcolon & _).
    destruct (truthy (Some (group_text 2 m))) eqn:Hvalue.
    - destruct (title_page_entries KeyLine lines) as [es'|] eqn:Hes; [|done].
      intros [= <-]. constructor.
      + by split; [|split; [|apply truthy_nonempty]].
      + by apply (IH KeyLine).
    - by apply (IH (ValueLine (group_text 1 m))). }
  destruct expect as [|key]; [apply Hkey|].
  destruct (Re.rmatch title_page_value_re line) as [m|] eqn:Hm; [|apply Hkey].
  destruct (title_page_entries (ValueLine key) lines) as [es'|] eqn:Hes;
    [|done].
  intros [= <-]. constructor.
  - destruct Hexpect as [? ?]. split; [done|]. split; [done|].
    by apply value_match_shape in Hm.
  - by apply (IH (ValueLine key)).
Qed.

Lemma values_of_in key entries value :
  value ∈ values_of key entries <-> (key, value) ∈ entries.
Proof.
  unfold values_of. rewrite list_elem_of_fmap. split.
  - intros ([k v] & -> & Hin). apply list_elem_of_In, filter_In in Hin.
    destruct Hin as [Hin Hk]. apply bool_decide_eq_true in Hk. simpl in Hk.
    subst k. by apply list_elem_of_In.
  - intros Hin. exists (key, value). split; [done|].
    apply list_elem_of_In, filter_In. split; [by apply list_elem_of_In|].
    by apply bool_decide_eq_true.
Qed.

(** X14. In the dictionary of a title page every key is not empty and has
    no colon, and its list of values is not empty and holds no empty
    value: a key without value is not recorded. *)
Theorem X14_title_page_keys_and_values lines d key values :
  parse_title_page lines = Some d ->
  d !! key = Some values ->
  key <> "" /\ Py.sany (Ascii.eqb ":") key = false /\
  values <> [] /\ Forall (fun value => value <> "") values.
Proof.
  rewrite parse_title_page_entries.
  destruct (title_page_entries KeyLine lines) as [entries|] eqn:Hentries;
    [|done].
  intros [= <-]. rewrite lookup_add_entries, lookup_empty.
  pose proof (title_page_entries_good KeyLine lines entries I Hentries)
    as Hgood.
  rewrite Forall_forall in Hgood.
  destruct (values_of key entries) as [|v vs] eqn:Hvalues; [done|].
  intros [= <-].
  assert (Hall : forall value,
    value ∈ v :: vs ->
    key <> "" /\ Py.sany (Ascii.eqb ":") key = false /\ value <> "").
  { intros value Hin. rewrite <- Hvalues in Hin.
    apply values_of_in in Hin. by apply (Hgood (key, value)). }
  destruct (Hall v) as (Hkey & Hcolon & _); [by left|].
  split; [done|]. split; [done|]. split; [done|].
  apply Forall_forall. intros value Hin. by apply Hall.
Qed.

Lemma key_re_needs_colon line :
  Py.sany (Ascii.eqb ":") line = false ->
  Re.rmatch title_page_key_re line = None.
Proof.
  intros Hcolon.
  destruct (Re.rmatch title_page_key_re line) as [m|] eqn:Hm; [|done].
  apply key_match_shape in Hm as (_ & _ & Hm). by rewrite Hcolon in Hm.
Qed.

Lemma leading_block_cons first rest :
  leading_block (first :: rest) =
  if String.eqb (_preprocess_line first) "" then []
  else _preprocess_line first :: leading_block rest.
Proof.
  unfold leading_block. cbn [map takewhile].
  destruct (String.eqb (_preprocess_line first) ""); [done|].
  cbn [negb]. by destruct (takewhile _ _).
Qed.

Lemma remaining_lines_cons first rest :
  remaining_lines (first :: rest) =
  if String.eqb (_preprocess_line first) "" then map _preprocess_line rest
  else remaining_lines rest.
Proof.
  unfold remaining_lines. cbn [map takewhile].
  destruct (String.eqb (_preprocess_line first) ""); [done|].
  cbn [negb]. by destruct (takewhile _ _).
Qed.

Section TitlePageBranch.
Context `{RichString}.

(** X15. When the first line, preprocessed, has no colon (or the input is
    empty), there is no title page: [parse] gives the elements of the
    whole preprocessed input parsed as body. *)
Theorem X15_no_colon_no_title_page source :
  match source with
  | [] => True
  | first :: _ => Py.sany (Ascii.eqb ":") (_preprocess_line first) = false
  end ->
  parse source = parse_body (map _preprocess_line source).
Proof.
  intros Hfirst. rewrite parse_unfold.
  replace (title_page_truthy (parse_title_page (leading_block source)))
    with false; [apply parse_rechained|].
  destruct source as [|first rest]; [done|].
  rewrite leading_block_cons.
  destruct (String.eqb (_preprocess_line first) ""); [done|].
  cbn [parse_title_page]. rewrite title_page_loop_eq.
  by rewrite (key_re_needs_colon _ Hfirst).
Qed.

(** X16. An input without blank line that is a title page with an entry
    gives no element. *)
Theorem X16_only_a_title_page source entries :
  Forall (fun line => _preprocess_line line <> "") source ->
  title_page_entries KeyLine (map _preprocess_line source) = Some entries ->
  entries <> [] ->
  parse source = [].
Proof.
  intros Hnonblank Hentries Hne.
  assert (Hsplit : leading_block source = map _preprocess_line source /\
                   remaining_lines source = []).
  { clear Hentries. induction source as [|first rest IH]; [done|].
    apply Forall_cons in Hnonblank as [Hfirst Hrest].
    destruct (IH Hrest) as [IHl IHr].
    rewrite leading_block_cons, remaining_lines_cons.
    apply String.eqb_neq in Hfirst. rewrite Hfirst.
    by rewrite IHl, IHr. }
  destruct Hsplit as [Hlead Hrest].
  rewrite parse_unfold, Hlead, Hrest, parse_title_page_entries, Hentries.
  cbn [fmap option_fmap option_map title_page_truthy].
  rewrite bool_decide_eq_false_2; [done|]. by rewrite add_entries_empty.
Qed.

(** X17. The leading block has no blank line, and the preprocessed lines
    are the leading block alone, when they have no blank line, or the
    leading block, a blank line and the remaining lines. *)
Theorem X17_leading_block_and_remaining_lines source :
  Forall (fun line => line <> "") (leading_block source) /\
  (map _preprocess_line source = leading_block source /\
   remaining_lines source = [] \/
   map _preprocess_line source =
   leading_block source ++ "" :: remaining_lines source).
Proof.
  induction source as [|first rest [IHall IHsplit]]; [split; [done|by left]|].
  rewrite leading_block_cons, remaining_lines_cons. cbn [map].
  destruct (String.eqb_spec (_preprocess_line first) "") as [->|Hne].
  - split; [done|]. by right.
  - split; [by constructor|].
    destruct IHsplit as [[-> ->] | ->]; [by left|by right].
Qed.
End TitlePageBranch.

(** ** Dual dialogue *)

Lemma str_app_char_inj a b x :
  a +:+ String x "" = b +:+ String x "" -> a = b.
Proof.
  revert b. induction a as [|c a IH]; intros b Heq.
  - destruct b as [|d [|? ?]]; [done|by injection Heq|by injection Heq].
  - destruct b as [|d b].
    + rewrite str_app_cons, str_app_nil_l in Heq.
      injection Heq as _ Heq. by destruct a.
    + rewrite !str_app_cons in Heq. injection Heq as -> Heq.
      by rewrite (IH b Heq).
Qed.

(** The match of [dual_dialog_re] on a name without trailing white space,
    followed by white space and the marker: the first group is the name. *)
Lemma dual_dialog_match name ws :
  name <> "" -> Py.rstrip name = name ->
  Py.sall Py.isspace ws = true ->
  Py.sall Re.any (name +:+ ws +:+ "^") = true ->
  Re.rmatch dual_dialog_re (name +:+ ws +:+ "^") =
  Some [(2, ws +:+ "^"); (1, name)].
Proof.
  intros Hne Hstrip Hws Hany.
  unfold Re.rmatch, dual_dialog_re.
  cbn [Re.seq Re.run Re.star Re.lazy_plus Re.chr].
  rewrite Nat.eqb_refl.
  assert (Hname : Py.sall Re.any name = true).
  { rewrite sall_app in Hany. by apply andb_true_iff in Hany as [? _]. }
  apply rep_lazy_at; [done|destruct name; [done|simpl; lia]| |].
  - unfold Re.space.
    apply (rep_greedy_max Py.isspace _ ws "^"); [done|done|done|].
    cbn. by rewrite !consumed_app, consumed_all.
  - intros pre1 s1 Hsplit _ Hlen.
    destruct (Re.rep true Re.space 0 None s1 _) as [y|] eqn:Hk; [|done].
    exfalso.
    apply rep_sound in Hk as (p & t & -> & Hp & _ & Hk).
    destruct t as [|c t]; [done|].
    destruct (Re.lit "^" c) eqn:Hc; [|done]. apply lit_eq in Hc as ->.
    assert (Ht : Py.sall Re.any t = true).
    { rewrite Hsplit, !sall_app in Hany.
      apply andb_true_iff in Hany as [_ Hany].
      apply andb_true_iff in Hany as [_ Hany].
      cbn [Py.sall] in Hany. by apply andb_true_iff in Hany as [_ ?]. }
    assert (t = "") as ->.
    { destruct t as [|c [|? ?]]; [done| |done].
      cbn [Py.sall] in Ht. rewrite andb_true_r in Ht. unfold Re.any in Ht.
      apply negb_true_iff in Ht. by rewrite Ht in Hk. }
    destruct (str_app_split_shorter _ _ _ _ Hsplit Hlen)
      as (v & Hv & Hnamev & Hs1).
    rewrite <- str_app_assoc in Hs1. apply str_app_char_inj in Hs1 as ->.
    unfold Re.space in Hp. rewrite sall_app in Hp.
    apply andb_true_iff in Hp as [Hpv _].
    unfold Py.rstrip in Hstrip. rewrite <- Hstrip in Hnamev.
    by rewrite (rstrip_no_trailing _ _ _ _ Hnamev Hv) in Hpv.
Qed.

Section DualDialogue.
Context `{RichString}.

(** X18. After a [Dialog], a paragraph of two lines or more whose first
    line is upper case, without line feed, and made of a name without
    trailing white space, white space and a final [^], replaces that
    [Dialog] by the [DualDialog] of it and of the new dialog, whose
    character is the name alone. *)
Theorem X18_dual_dialogue_strips_the_marker name ws rest prev previous :
  name <> "" -> Py.rstrip name = name ->
  Py.sall Py.isspace ws = true ->
  Py.sall Re.any (name +:+ ws +:+ "^") = true ->
  Py.isupper (name +:+ ws +:+ "^") = true ->
  rest <> [] ->
  is_Dialog previous = true ->
  update_list ((name +:+ ws +:+ "^") :: rest) (prev ++ [previous]) =
  prev ++
  [DualDialog previous
     (Dialog (parse_emphasis name)
        (map parse_emphasis (map Py.strip rest)) None)].
Proof.
  intros Hne Hstrip Hws Hany Hupper Hrest Hprevious.
  destruct rest as [|second rest]; [done|].
  set (first := name +:+ ws +:+ "^") in *.
  assert (Hcaret : Py.endswith first "^" = true).
  { unfold first. rewrite <- str_app_assoc. apply endswith_app_char. }
  unfold update_list.
  change (as_synopsis (first :: second :: rest) (prev ++ [previous]))
    with (@None Element, prev ++ [previous]).
  cbv beta iota.
  change (as_section (first :: second :: rest)) with (@None Element).
  change (as_slug (first :: second :: rest)) with (@None Element).
  unfold as_centered_action. cbn [forallb].
  rewrite (centered_not_caret first Hcaret). cbn [andb negb].
  unfold as_dialog. cbn [length Nat.ltb Nat.leb nth].
  rewrite Hupper, (endswith_caret_not_two_spaces first Hcaret).
  cbn [negb orb]. rewrite pop_snoc, Hprevious.
  unfold first. by rewrite dual_dialog_match.
Qed.
End DualDialogue.

(** ** Centered lines *)

Lemma rstrip_all p q : Py.sall p q = true -> Py.rstrip_by p q = "".
Proof.
  induction q as [|c q IH]; [done|].
  cbn [Py.sall]. intros Hq. apply andb_true_iff in Hq as [Hc Hq].
  cbn [Py.rstrip_by]. by rewrite (IH Hq), Hc.
Qed.

(** [rstrip] stops at the last character that is not of the set. *)
Lemma rstrip_app_keep p a x q :
  p x = false -> Py.sall p q = true ->
  Py.rstrip_by p (a +:+ String x q) = a +:+ String x "".
Proof.
  intros Hx Hq. induction a as [|c a IH].
  - rewrite !str_app_nil_l, (rstrip_cons_keep _ _ _ Hx).
    by rewrite (rstrip_all _ _ Hq).
  - rewrite !str_app_cons. cbn [Py.rstrip_by]. rewrite IH.
    by destruct a.
Qed.

Lemma str_app_marker_inj p a b x q q' :
  p x = false -> Py.sall p q = true -> Py.sall p q' = true ->
  a +:+ String x q = b +:+ String x q' -> a = b.
Proof.
  intros Hx Hq Hq' Heq.
  apply (f_equal (Py.rstrip_by p)) in Heq.
  rewrite !rstrip_app_keep in Heq by done.
  by apply str_app_char_inj in Heq.
Qed.

(** The match of [centered_re] on a text between the two markers, with
    white space around the markers: the group is the text. *)
Lemma centered_match ws0 ws1 text ws2 ws3 :
  text <> "" -> Py.lstrip text = text -> Py.rstrip text = text ->
  Py.sall Py.isspace ws0 = true -> Py.sall Py.isspace ws1 = true ->
  Py.sall Py.isspace ws2 = true -> Py.sall Py.isspace ws3 = true ->
  Py.sall Re.any (text +:+ ws2 +:+ String "<" ws3) = true ->
  Re.rmatch centered_re
    (ws0 +:+ String ">" (ws1 +:+ text +:+ ws2 +:+ String "<" ws3)) =
  Some [(1, text)].
Proof.
  intros Hne Hl Hr Hws0 Hws1 Hws2 Hws3 Hany.
  unfold Re.rmatch, centered_re.
  cbn [Re.seq Re.run Re.star Re.lazy_star Re.chr]. unfold Re.space.
  apply (rep_greedy_max Py.isspace _ ws0
           (String ">" (ws1 +:+ text +:+ ws2 +:+ String "<" ws3)));
    [done|done|done|].
  change (Re.lit ">" ">") with true. cbv iota.
  assert (Hhead : match text +:+ ws2 +:+ String "<" ws3 with
                  | EmptyString => True
                  | String c _ => Py.isspace c = false
                  end).
  { destruct text as [|c t]; [done|]. rewrite str_app_cons.
    by apply (lstrip_id_head c t). }
  apply (rep_greedy_max Py.isspace _ ws1 (text +:+ ws2 +:+ String "<" ws3));
    [done|done|done|].
  assert (Htext : Py.sall Re.any text = true).
  { rewrite sall_app in Hany. by apply andb_true_iff in Hany as [? _]. }
  apply rep_lazy_at; [done|lia| |].
  - apply (rep_greedy_max Py.isspace _ ws2 (String "<" ws3));
      [done|done|done|].
    change (Re.lit "<" "<") with true. cbv iota.
    apply rep_greedy_all; [done|]. by rewrite consumed_app.
  - intros pre1 s1 Hsplit _ Hlen.
    destruct (Re.rep true Py.isspace 0 None s1 _) as [y|] eqn:Hk; [|done].
    exfalso.
    apply rep_sound in Hk as (p & t & -> & Hp & _ & Hk).
    destruct t as [|c t]; [done|].
    destruct (Re.lit "<" c) eqn:Hc; [|done]. apply lit_eq in Hc as ->.
    apply rep_sound in Hk as (q & t' & -> & Hq & _ & Hk).
    assert (Ht' : Py.sall Re.any t' = true).
    { rewrite Hsplit, !sall_app in Hany.
      apply andb_true_iff in Hany as [_ Hany].
      apply andb_true_iff in Hany as [_ Hany].
      cbn [Py.sall] in Hany. apply andb_true_iff in Hany as [_ Hany].
      rewrite sall_app in Hany. by apply andb_true_iff in Hany as [_ ?]. }
    assert (t' = "") as ->.
    { destruct t' as [|c [|? ?]]; [done| |done].
      cbn [Py.sall] in Ht'. rewrite andb_true_r in Ht'. unfold Re.any in Ht'.
      apply negb_true_iff in Ht'. by rewrite Ht' in Hk. }
    rewrite str_app_nil_r in Hsplit.
    destruct (str_app_split_shorter _ _ _ _ Hsplit Hlen)
      as (v & Hv & Htextv & Hs1).
    rewrite <- str_app_assoc in Hs1.
    apply (str_app_marker_inj Py.isspace) in Hs1; [|done..].
    subst p. rewrite sall_app in Hp. apply andb_true_iff in Hp as [Hpv _].
    unfold Py.rstrip in Hr. rewrite <- Hr in Htextv.
    by rewrite (rstrip_no_trailing _ _ _ _ Htextv Hv) in Hpv.
Qed.

Lemma toupper_space c : Py.isspace c = true -> Py.toupper c = c.
Proof. by destruct c as [[] [] [] [] [] [] [] []]. Qed.

Section CenteredLine.
Context `{RichString}.

(** X19. A paragraph of one line without line feed, made of white space,
    [>], white space, a text that neither starts nor ends with white space,
    white space, [<] and white space, appends a centered [Action] whose one
    line is the text alone: the markers and the white space around them and
    around the text are left out. *)
Theorem X19_centered_line_keeps_the_text ws0 ws1 text ws2 ws3 prev :
  text <> "" -> Py.lstrip text = text -> Py.rstrip text = text ->
  Py.sall Py.isspace ws0 = true -> Py.sall Py.isspace ws1 = true ->
  Py.sall Py.isspace ws2 = true -> Py.sall Py.isspace ws3 = true ->
  Py.sall Re.any (text +:+ ws2 +:+ String "<" ws3) = true ->
  update_list
    [ws0 +:+ String ">" (ws1 +:+ text +:+ ws2 +:+ String "<" ws3)] prev =
  prev ++ [Action [parse_emphasis text] true None].
Proof.
  intros Hne Hl Hr Hws0 Hws1 Hws2 Hws3 Hany.
  set (line := ws0 +:+ String ">" (ws1 +:+ text +:+ ws2 +:+ String "<" ws3)).
  pose proof (centered_match ws0 ws1 text ws2 ws3
                Hne Hl Hr Hws0 Hws1 Hws2 Hws3 Hany) as Hm.
  fold line in Hm.
  assert (Hfirst : exists c s, line = String c s /\
                     (c = ">"%char \/ Py.isspace c = true)).
  { unfold line. destruct ws0 as [|c ws0].
    - eexists _, _. split; [by rewrite str_app_nil_l|]. by left.
    - cbn [Py.sall] in Hws0. apply andb_true_iff in Hws0 as [Hc _].
      eexists _, _. split; [by rewrite str_app_cons|]. by right. }
  destruct Hfirst as (c & s & Hline & Hc).
  assert (Hslug : as_slug [line] = None).
  { destruct (as_slug [line]) as [e|] eqn:Hslug; [|done]. exfalso.
    rewrite Hline in Hslug. apply as_slug_first_char in Hslug.
    destruct Hc as [-> | Hc]; [by destruct Hslug as [|[|]]|].
    rewrite (toupper_space c Hc) in Hslug.
    destruct Hslug as [-> | [-> | ->]]; done. }
  assert (Hsyn : as_synopsis [line] prev = (None, prev)).
  { unfold as_synopsis. rewrite Hline. cbn [Py.startswith].
    assert (Ascii.eqb "=" c = false) as ->
      by (destruct Hc as [-> | Hc]; [done|];
          apply Ascii.eqb_neq; by intros <-).
    by destruct (pop prev) as [[? ?]|]. }
  assert (Hsec : as_section [line] = None).
  { unfold as_section, Re.rmatch, section_re.
    cbn [Re.seq Re.run]. rewrite Nat.eqb_refl, Hline.
    rewrite rep_unfold. cbv zeta.
    assert (Re.lit "#" c = false) as ->
      by (destruct Hc as [-> | Hc]; [done|];
          apply Ascii.eqb_neq; by intros <-).
    done. }
  unfold update_list. rewrite Hsyn, Hsec, Hslug.
  unfold as_centered_action, matches. cbn [forallb map]. by rewrite Hm.
Qed.
End CenteredLine.

(** ** Elements that are final *)

Section FinalElements.
Context `{RichString}.

(** A paragraph appends one element, or replaces the last one. *)
Lemma update_list_cases lines prev :
  (exists e, update_list lines prev = prev ++ [e]) \/
  (exists init last e,
     prev = init ++ [last] /\ update_list lines prev = init ++ [e]).
Proof.
  unfold update_list.
  destruct (as_synopsis_cases lines prev)
    as [-> | (init & last & text & -> & Hcap & ->)].
  - destruct (as_section lines); [left; by eexists|].
    destruct (as_slug lines); [left; by eexists|].
    destruct (as_centered_action lines); [left; by eexists|].
    destruct (as_dialog_cases lines prev)
      as [-> | [(d & _ & ->) | (init & last & d & -> & Hl & Hd & ->)]].
    + destruct (as_transition lines); left; by eexists.
    + left; by eexists.
    + right. by eexists init, last, _.
  - right. by eexists init, last, _.
Qed.

Lemma foldl_update_list_keeps_init paragraphs out :
  removelast out `prefix_of`
  foldl (fun out lines => update_list lines out) out paragraphs.
Proof.
  revert out. induction paragraphs as [|p ps IH]; intros out.
  - cbn. exists (match last out with Some x => [x] | None => [] end).
    destruct out as [|x out] using rev_ind; [done|].
    by rewrite removelast_last, last_snoc.
  - cbn [foldl]. etrans; [|apply IH].
    destruct (update_list_cases p out)
      as [[e ->] | (init & last & e & -> & ->)].
    + rewrite removelast_last.
      destruct out as [|x out] using rev_ind; [by exists []|].
      rewrite removelast_last. by exists [x].
    + by rewrite !removelast_last.
Qed.

(** X20. Whatever follows an empty line, the elements parsed before it
    stay as they are, the last one apart: the result of the lines up to
    the empty line, without its last element, is a prefix of the result
    of all the lines. *)
Theorem X20_elements_before_the_last_are_final a b :
  removelast (parse_body a) `prefix_of` parse_body (a ++ "" :: b).
Proof.
  rewrite !parse_body_fold, input_paragraphs_across_blank, foldl_app.
  apply foldl_update_list_keeps_init.
Qed.
End FinalElements.

(** ** Examples of the further properties *)

Section MoreExamples.

Local Existing Instance markup.

Lemma X4_witness_plain_line_after_dialog :
  (Py.startswith "Hello there." "=" = false /\
   Py.sany (Ascii.eqb "^") "Hello there." = false) /\
  exists e,
    update_list ["Hello there."]
      [Dialog (Emphasis "ALICE") [Emphasis "hi"] None] =
    [Dialog (Emphasis "ALICE") [Emphasis "hi"] None] ++ [e].
Proof.
  split; [by split|].
  apply (X4_previous_untouched_without_marker ["Hello there."]). by split.
Defined.

Lemma X7_witness_two_spaces_after_name :
  Py.endswith "ALICE  " TWOSPACE = true /\
  as_centered_action ["ALICE  "; "hi"] = None /\
  update_list ["ALICE  "; "hi"] [] =
  [Action [Emphasis "ALICE"; Emphasis "hi"] false None].
Proof.
  assert (Hrest : ["hi"] <> @nil string) by discriminate.
  split; [reflexivity|]. split; [vm_compute; reflexivity|].
  refine (X7_no_dialog_without_upper_case_name "ALICE  " ["hi"] []
            Hrest (or_intror eq_refl) _).
  vm_compute. reflexivity.
Defined.

Lemma X8_witness_level_three :
  as_section ["### Act one"] = Some (Section (Emphasis "Act one") 3 None) /\
  exists text level,
    Section (Emphasis "Act one") 3 None = Section text level None /\
    1 <= level <= 6 /\
    level =
    String.length "### Act one" -
    String.length (Py.lstrip_by (Ascii.eqb "#") "### Act one").
Proof.
  assert (Hsection :
    as_section ["### Act one"] = Some (Section (Emphasis "Act one") 3 None))
    by (vm_compute; reflexivity).
  split; [exact Hsection|].
  exact (X8_section_level_counts_hashes _ _ Hsection).
Defined.

Lemma X9_witness_level_two :
  update_list ["## Act two"] [] = [Section (Emphasis "Act two") 2 None].
Proof.
  assert (Hlen : 1 <= String.length "##" <= 6) by (simpl; lia).
  assert (Hbody : "A"%char <> "#"%char /\ Py.isspace "A" = false)
    by (split; [discriminate|reflexivity]).
  exact (X9_hashes_make_a_section "##" " " "Act two" []
           eq_refl Hlen eq_refl Hbody eq_refl).
Defined.

Lemma X10_witness_forced_slug :
  update_list [". the office  "] [] =
  [Slug (Emphasis "THE OFFICE") None None].
Proof.
  assert (Hbody : Py.lstrip " the office  " <> "") by discriminate.
  exact (X10_period_forces_a_slug " the office  " [] Hbody eq_refl eq_refl).
Defined.

Lemma X11_witness_lower_case_heading :
  update_list ["int. house - day"] [] =
  [Slug (Emphasis "INT. HOUSE - DAY") None None] /\
  as_slug ["interior. house"] = None.
Proof.
  assert (Hi : "i"%char <> "."%char) by discriminate.
  split.
  - exact (proj1 (X11_slug_by_prefix "i" "nt. house - day" []
                    Hi eq_refl eq_refl eq_refl) eq_refl).
  - exact (proj2 (X11_slug_by_prefix "i" "nterior. house" []
                    Hi eq_refl eq_refl eq_refl) eq_refl).
Defined.

Lemma X13_witness_clean_line :
  _preprocess_line "INT. HOUSE - DAY" = "INT. HOUSE - DAY".
Proof.
  exact (X13_preprocess_line_keeps_clean_line "INT. HOUSE - DAY"
           eq_refl eq_refl eq_refl).
Defined.

Lemma X14_witness_key_without_value_left_out :
  parse_title_page ["Title:"; "    My Play"; "Author: me"; "Draft:"] =
  Some (<["Title" := ["My Play"]]> (<["Author" := ["me"]]> ∅)) /\
  ("Title" <> "" /\ Py.sany (Ascii.eqb ":") "Title" = false /\
   ["My Play"] <> [] /\ Forall (fun value => value <> "") ["My Play"]).
Proof.
  assert (Hparse :
    parse_title_page ["Title:"; "    My Play"; "Author: me"; "Draft:"] =
    Some (<["Title" := ["My Play"]]> (<["Author" := ["me"]]> ∅)))
    by (vm_compute; reflexivity).
  split; [exact Hparse|].
  apply (X14_title_page_keys_and_values _ _ "Title" ["My Play"] Hparse).
  vm_compute. reflexivity.
Defined.

Lemma X15_witness_body_from_first_line :
  Py.sany (Ascii.eqb ":") (_preprocess_line "INT. HOUSE - DAY") = false /\
  parse ["INT. HOUSE - DAY"; ""; "Alice: enters."] =
  parse_body (map _preprocess_line ["INT. HOUSE - DAY"; ""; "Alice: enters."]).
Proof.
  split; [vm_compute; reflexivity|].
  apply (X15_no_colon_no_title_page
           ["INT. HOUSE - DAY"; ""; "Alice: enters."]).
  vm_compute. reflexivity.
Defined.

Lemma X16_witness_title_page_alone :
  title_page_entries KeyLine
    (map _preprocess_line ["Title: My Play"; "Author: me"]) =
  Some [("Title", "My Play"); ("Author", "me")] /\
  parse ["Title: My Play"; "Author: me"] = [].
Proof.
  assert (Hentries :
    title_page_entries KeyLine
      (map _preprocess_line ["Title: My Play"; "Author: me"]) =
    Some [("Title", "My Play"); ("Author", "me")])
    by (vm_compute; reflexivity).
  split; [exact Hentries|].
  assert (Hnonblank :
    Forall (fun line => _preprocess_line line <> "")
      ["Title: My Play"; "Author: me"])
    by (repeat constructor; discriminate).
  apply (X16_only_a_title_page _ _ Hnonblank Hentries). discriminate.
Defined.

Lemma X18_witness_bob_after_alice :
  update_list ["BOB  ^"; "hey"]
    [Dialog (Emphasis "ALICE") [Emphasis "hi"] None] =
  [DualDialog (Dialog (Emphasis "ALICE") [Emphasis "hi"] None)
     (Dialog (Emphasis "BOB") [Emphasis "hey"] None)].
Proof.
  assert (Hname : "BOB" <> "") by discriminate.
  assert (Hrest : ["hey"] <> @nil string) by discriminate.
  exact (X18_dual_dialogue_strips_the_marker "BOB" "  " ["hey"] []
           (Dialog (Emphasis "ALICE") [Emphasis "hi"] None)
           Hname eq_refl eq_refl eq_refl eq_refl Hrest eq_refl).
Defined.

Lemma X19_witness_the_end :
  update_list [" > THE END <"] [] = [Action [Emphasis "THE END"] true None].
Proof.
  assert (Htext : "THE END" <> "") by discriminate.
  exact (X19_centered_line_keeps_the_text " " " " "THE END" " " "" []
           Htext eq_refl eq_refl eq_refl eq_refl eq_refl eq_refl eq_refl).
Defined.

End MoreExamples.
